(** * IoT dashboard and edge telemetry client: a shallow embedding

    The development follows the two halves of the repository.

    - [Js] and [Dashboard] embed the browser script (the script with the
      threat popup, and its earlier draft [src/frontend/script.js] that has
      no popup): [renderSummary], [fetchAndRender], the Socket.IO start-up
      block, [createPopup], [removePopup], [existsThreatDetectedInCards]
      and [scanDomForThreat].  The script writes the texts of a device
      into markup; the embedding covers the texts without markup in them
      ([Dashboard.PlainText]).
    - [Edge] embeds the ESP8266 sketch in its two drafts: [setupWiFi],
      [getIsoTimestamp], [reconnectIfNeeded], [sendSensorData], [loop].
    - [Controls] embeds the handlers of the browser script that call the
      backend: [togglePower], [deleteDevice], the add-device handler and
      the emergency-check handler.

    Definitions come first, theorems after. *)

From Stdlib Require Import ZArith List String Ascii Bool Lia.
Import ListNotations.

Open Scope string_scope.
Open Scope Z_scope.

(* ================================================================== *)
(** ** JavaScript strings *)

(** A JavaScript string is a sequence of characters.  Here a string is
    the sequence of bytes of its UTF-8 encoding, a Rocq [string]: an
    ASCII character is one byte below 128, any other character is two to
    four bytes of 128 or more.  Strings are taken to be well formed (no
    lone surrogate), so that two strings are equal when their bytes
    are. *)
Module Js.

Definition dquote : string := String (ascii_of_nat 34) "".
Definition newline : string := String (ascii_of_nat 10) "".

(** *** White space *)

(** The white space and line terminators that [String.prototype.trim]
    removes.  Of one byte: TAB, LF, VT, FF, CR, SP. *)
Definition isWhiteSpace1 (a : ascii) : bool :=
  let n := nat_of_ascii a in
  (Nat.eqb n 9 || Nat.eqb n 10 || Nat.eqb n 11 || Nat.eqb n 12
   || Nat.eqb n 13 || Nat.eqb n 32)%bool.

(** Of two bytes: U+00A0 (C2 A0). *)
Definition isWhiteSpace2 (a b : ascii) : bool :=
  (Nat.eqb (nat_of_ascii a) 194 && Nat.eqb (nat_of_ascii b) 160)%bool.

(** Of three bytes: U+1680 (E1 9A 80), U+2000 to U+200A (E2 80 80 to
    E2 80 8A), U+2028 and U+2029 (E2 80 A8, E2 80 A9), U+202F (E2 80 AF),
    U+205F (E2 81 9F), U+3000 (E3 80 80) and U+FEFF (EF BB BF). *)
Definition isWhiteSpace3 (a b c : ascii) : bool :=
  let x := nat_of_ascii a in
  let y := nat_of_ascii b in
  let z := nat_of_ascii c in
  ((Nat.eqb x 225 && Nat.eqb y 154 && Nat.eqb z 128)
   || (Nat.eqb x 226 && Nat.eqb y 128
       && ((Nat.leb 128 z && Nat.leb z 138) || Nat.eqb z 168
           || Nat.eqb z 169 || Nat.eqb z 175))
   || (Nat.eqb x 226 && Nat.eqb y 129 && Nat.eqb z 159)
   || (Nat.eqb x 227 && Nat.eqb y 128 && Nat.eqb z 128)
   || (Nat.eqb x 239 && Nat.eqb y 187 && Nat.eqb z 191))%bool.

Fixpoint trimStart (s : string) : string :=
  match s with
  | EmptyString => EmptyString
  | String a r1 =>
      if isWhiteSpace1 a then trimStart r1
      else
        match r1 with
        | EmptyString => s
        | String b r2 =>
            if isWhiteSpace2 a b then trimStart r2
            else
              match r2 with
              | EmptyString => s
              | String c r3 =>
                  if isWhiteSpace3 a b c then trimStart r3 else s
              end
        end
  end.

(** The string is made of white space only. *)
Fixpoint allWhiteSpace (s : string) : bool :=
  match s with
  | EmptyString => true
  | String a r1 =>
      if isWhiteSpace1 a then allWhiteSpace r1
      else
        match r1 with
        | EmptyString => false
        | String b r2 =>
            if isWhiteSpace2 a b then allWhiteSpace r2
            else
              match r2 with
              | EmptyString => false
              | String c r3 =>
                  if isWhiteSpace3 a b c then allWhiteSpace r3 else false
              end
        end
  end.

(** The string without the white space it ends with: it is cut where
    what is left is white space only. *)
Fixpoint trimEnd (s : string) : string :=
  match s with
  | EmptyString => EmptyString
  | String c r => if allWhiteSpace s then EmptyString else String c (trimEnd r)
  end.

Definition trim (s : string) : string := trimEnd (trimStart s).

(** *** Regular expressions *)

(** [Canonicalize] of a regular expression with the [i] flag and without
    the [u] flag: the upper-case form of the character.  A character
    outside ASCII is never mapped to an ASCII one, and the patterns of
    this script are ASCII, so bytes of 128 or more are left as they are:
    that changes no comparison with a pattern character. *)
Definition canonicalize (c : ascii) : ascii :=
  let n := nat_of_ascii c in
  if (Nat.leb 97 n && Nat.leb n 122)%bool then ascii_of_nat (n - 32) else c.

(** [/^lit$/i.test(s)] for a pattern [lit] made of letters and spaces: the
    whole of [s] is [lit], character by character, up to letter case. *)
Fixpoint testWholeIgnoreCase (lit s : string) : bool :=
  match lit, s with
  | EmptyString, EmptyString => true
  | String p lit', String c s' =>
      (Ascii.eqb (canonicalize p) (canonicalize c)
       && testWholeIgnoreCase lit' s')%bool
  | _, _ => false
  end.

(** [s.includes(sub)]. *)
Fixpoint includes (s sub : string) : bool :=
  (prefix sub s ||
   match s with
   | EmptyString => false
   | String _ r => includes r sub
   end)%bool.

(** *** Numbers *)

(** [String(n)] for a non-negative integer: its decimal digits. *)
Definition digit (d : Z) : ascii := ascii_of_nat (48 + Z.to_nat d).

Fixpoint decimal_aux (fuel : nat) (n : Z) (acc : string) : string :=
  match fuel with
  | O => acc
  | S f =>
      let acc' := String (digit (n mod 10)) acc in
      if n <? 10 then acc' else decimal_aux f (n / 10) acc'
  end.

Definition decimal (n : Z) : string :=
  decimal_aux (S (Z.to_nat (Z.log2 n))) n "".

Definition isDigit (c : ascii) : bool :=
  let n := nat_of_ascii c in (Nat.leb 48 n && Nat.leb n 57)%bool.

Fixpoint allDigits (s : string) : bool :=
  match s with
  | EmptyString => true
  | String c r => (isDigit c && allDigits r)%bool
  end.

(** *** Markup *)

(** The characters at which the HTML parser leaves plain text when it
    reads element content: [<] opens a tag or a comment, [&] a character
    reference, and U+0000 is dropped. *)
Definition isMarkup (c : ascii) : bool :=
  let n := nat_of_ascii c in
  (Nat.eqb n 0 || Nat.eqb n 38 || Nat.eqb n 60)%bool.

(** A text without any of them: assigned to [innerHTML] inside an
    element, it becomes one text node and no element. *)
Fixpoint plain (s : string) : bool :=
  match s with
  | EmptyString => true
  | String c r => (negb (isMarkup c) && plain r)%bool
  end.

(** *** Layout of text *)

(** The white space that layout collapses in a paragraph (the initial
    [white-space: normal]): TAB, LF, CR and SP.  A CR in markup reaches
    the text node as LF; both collapse alike. *)
Definition isCollapsible (c : ascii) : bool :=
  let n := nat_of_ascii c in
  (Nat.eqb n 9 || Nat.eqb n 10 || Nat.eqb n 13 || Nat.eqb n 32)%bool.

Fixpoint skipCollapsible (s : string) : string :=
  match s with
  | EmptyString => EmptyString
  | String c r => if isCollapsible c then skipCollapsible r else s
  end.

(** Every run of collapsible white space that is followed by another
    character becomes one space; a run at the end goes. *)
Fixpoint squeeze (s : string) : string :=
  match s with
  | EmptyString => EmptyString
  | String c r =>
      if isCollapsible c then
        match r with
        | EmptyString => EmptyString
        | String d _ =>
            if isCollapsible d then squeeze r else String " " (squeeze r)
        end
      else String c (squeeze r)
  end.

(** The text as a paragraph shows it: white space at its start and end
    removed, every other run of it shown as one space. *)
Definition collapseWhiteSpace (s : string) : string :=
  squeeze (skipCollapsible s).

(** *** Vocabulary of the statements *)

(** An ASCII character that is no white space. *)
Definition ink (c : ascii) : bool :=
  (negb (isWhiteSpace1 c) && Nat.ltb (nat_of_ascii c) 128)%bool.

Fixpoint hasInk (s : string) : bool :=
  match s with
  | EmptyString => false
  | String c r => (ink c || hasInk r)%bool
  end.

Fixpoint lastInk (s : string) : bool :=
  match s with
  | EmptyString => false
  | String c EmptyString => ink c
  | String _ r => lastInk r
  end.

(** A pattern character that only such characters match. *)
Definition inkPattern (p : ascii) : Prop :=
  forall c, Ascii.eqb (canonicalize p) (canonicalize c) = true ->
            ink c = true.

(** A pattern character that only the space matches. *)
Definition spacePattern (p : ascii) : Prop :=
  forall c, Ascii.eqb (canonicalize p) (canonicalize c) = true -> c = " "%char.

(** A pattern of words with one space between them. *)
Fixpoint phrase (lit : string) : Prop :=
  match lit with
  | EmptyString => True
  | String p rest =>
      (inkPattern p /\ phrase rest)
      \/ (spacePattern p
          /\ match rest with
             | EmptyString => False
             | String q _ => inkPattern q
             end
          /\ phrase rest)
  end.

(** The pattern ends with a character that only ink matches. *)
Fixpoint endsInk (lit : string) : Prop :=
  match lit with
  | EmptyString => False
  | String p EmptyString => inkPattern p
  | String _ r => endsInk r
  end.

(** What may follow white space for [squeeze] to treat the two apart:
    nothing, or a character that does not collapse. *)
Definition startsFirm (y : string) : Prop :=
  match y with
  | EmptyString => True
  | String c _ => isCollapsible c = false
  end.

End Js.

(* ================================================================== *)
(** ** The dashboard script *)

Module Dashboard.

(** *** Data *)

(** The values a device's [power] takes in the decoded JSON: the database
    stores the boolean as 1/0. *)
Inductive JsValue :=
| JsBool (b : bool)
| JsNumber (n : Z)
| JsNull.

(** [Boolean(v)], also the test of [if (v)]. *)
Definition Boolean (v : JsValue) : bool :=
  match v with
  | JsBool b => b
  | JsNumber n => negb (n =? 0)
  | JsNull => false
  end.

(** The script puts the text fields of a device into markup that it
    assigns to [innerHTML], so the parser reads them.  The embedding
    covers the texts that the parser takes as they are, those without
    markup ([Js.plain]); a text with a tag or a character reference in it
    is outside it. *)
Record PlainText := {
  text_of : string;
  text_plain : Js.plain text_of = true
}.

Notation "'plaintext' s" :=
  {| text_of := s; text_plain := eq_refl |} (at level 9, s at level 0).

(** A device record of the registry, as [response.json()] yields it. *)
Record Device := {
  id : Z;
  name_text : PlainText;
  type_text : PlainText;
  data_text : PlainText;
  threat_text : PlainText;
  location_text : PlainText;
  last_seen_text : PlainText;
  power : JsValue
}.

(** The strings [device.name], [device.type], ... *)
Definition name (d : Device) : string := text_of (name_text d).
Definition type (d : Device) : string := text_of (type_text d).
Definition data (d : Device) : string := text_of (data_text d).
Definition threat (d : Device) : string := text_of (threat_text d).
Definition location (d : Device) : string := text_of (location_text d).
Definition last_seen (d : Device) : string := text_of (last_seen_text d).

(** A rendered card of [#device-grid]: the values put into the holes of the
    card template, in the order of the template.  The six texts of the
    device hold no markup, so the card has the elements of the template
    and no other: one paragraph whose class is [threat] or [no-threat],
    and no element with an id. *)
Record Card := {
  card_name : PlainText;       (* <h5> *)
  card_statusClass : string;   (* badge class *)
  card_status : string;        (* badge text *)
  card_type : PlainText;
  card_data : PlainText;
  card_threatClass : string;   (* class of the threat paragraph *)
  card_threat : PlainText;     (* text of the threat paragraph *)
  card_location : PlainText;
  card_last_seen : PlainText;
  card_power : string;         (* ON / OFF *)
  card_toggle : Z;             (* argument of togglePower *)
  card_button : string;        (* Turn Off / Turn On *)
  card_delete : Z              (* argument of deleteDevice *)
}.

(** An element with id [threat-popup]: the text of its [span.sub]; the
    heading above it is fixed. *)
Record Popup := { popup_sub : PlainText }.

Inductive Level := LogLevel | WarnLevel | ErrorLevel.

(** A console line: level, message, and the value printed after it. *)
Record ConsoleLine := {
  line_level : Level;
  line_message : string;
  line_value : string
}.

(** The functions the scripts hand to [setInterval]. *)
Inductive Callback := CbFetchAndRender | CbScanDomForThreat.

(** The page: the markup of [#status-summary], the cards of [#device-grid],
    the elements of the document with id [threat-popup] in document
    order, the console, the timers set by [setInterval], and whether the
    Socket.IO handlers are registered.  Both [#status-summary] and
    [#device-grid] are taken to exist, as [fetchAndRender] needs them; the
    popup script then observes the grid and sets no timer of its own.
    The only elements with id [threat-popup] are those the script
    creates: the cards hold none (their texts are plain) and the page as
    served is taken to hold none. *)
Record Page := {
  summary : string;
  grid : list Card;
  popups : list Popup;
  console : list ConsoleLine;
  intervals : list (Callback * Z);
  socket : bool
}.

Definition set_summary (s : string) (p : Page) : Page :=
  {| summary := s; grid := grid p; popups := popups p;
     console := console p; intervals := intervals p; socket := socket p |}.

Definition set_grid (g : list Card) (p : Page) : Page :=
  {| summary := summary p; grid := g; popups := popups p;
     console := console p; intervals := intervals p; socket := socket p |}.

Definition set_popups (l : list Popup) (p : Page) : Page :=
  {| summary := summary p; grid := grid p; popups := l;
     console := console p; intervals := intervals p; socket := socket p |}.

Definition console_add (lv : Level) (msg v : string) (p : Page) : Page :=
  {| summary := summary p; grid := grid p; popups := popups p;
     console := console p ++ [{| line_level := lv; line_message := msg;
                                 line_value := v |}];
     intervals := intervals p; socket := socket p |}.

Definition setInterval (cb : Callback) (ms : Z) (p : Page) : Page :=
  {| summary := summary p; grid := grid p; popups := popups p;
     console := console p; intervals := intervals p ++ [(cb, ms)];
     socket := socket p |}.

Definition set_socket (b : bool) (p : Page) : Page :=
  {| summary := summary p; grid := grid p; popups := popups p;
     console := console p; intervals := intervals p; socket := b |}.

(** *** renderSummary *)

Definition countOnline (devices : list Device) : Z :=
  Z.of_nat (List.length (filter (fun d => Boolean (power d)) devices)).

Definition countOffline (devices : list Device) : Z :=
  Z.of_nat (List.length (filter (fun d => negb (Boolean (power d))) devices)).

(** [d.threat === "Threat Detected"]: strict equality of strings. *)
Definition countThreats (devices : list Device) : Z :=
  Z.of_nat (List.length
    (filter (fun d => String.eqb (threat d) "Threat Detected") devices)).

Definition badge (cls : string) (n : Z) (label : string) : string :=
  "<span class=" ++ Js.dquote ++ cls ++ Js.dquote ++ ">"
  ++ Js.decimal n ++ " " ++ label ++ "</span>".

Definition summaryMarkup (online offline threats : Z) : string :=
  Js.newline ++ "    " ++ badge "badge bg-success me-2" online "Online"
  ++ Js.newline ++ "    " ++ badge "badge bg-secondary me-2" offline "Offline"
  ++ Js.newline ++ "    " ++ badge "badge bg-danger" threats "Threat Detected"
  ++ Js.newline ++ "  ".

Definition renderSummary (devices : list Device) (p : Page) : Page :=
  set_summary
    (summaryMarkup (countOnline devices) (countOffline devices)
                   (countThreats devices)) p.

(** *** The card of a device *)

Definition renderCard (device : Device) : Card :=
  let isPowerOn := Boolean (power device) in
  {| card_name := name_text device;
     card_statusClass := if isPowerOn then "bg-success" else "bg-secondary";
     card_status := if isPowerOn then "Online" else "Offline";
     card_type := type_text device;
     card_data := data_text device;
     card_threatClass :=
       if String.eqb (threat device) "No Threat" then "no-threat"
       else "threat";
     card_threat := threat_text device;
     card_location := location_text device;
     card_last_seen := last_seen_text device;
     card_power := if isPowerOn then "ON" else "OFF";
     card_toggle := id device;
     card_button := if isPowerOn then "Turn Off" else "Turn On";
     card_delete := id device |}.

(** *** The threat popup *)

(** [document.getElementById('threat-popup')] is the first element with
    that id in the document; [ex.remove()] takes it out. *)
Definition removePopup (p : Page) : Page :=
  match popups p with
  | [] => p
  | _ :: rest => set_popups rest p
  end.

(** [a || b] on strings: the empty string is falsy. *)
Definition orElse (a b : string) : string :=
  if String.eqb a "" then b else a.

Definition orElseText (a b : PlainText) : PlainText :=
  if String.eqb (text_of a) "" then b else a.

Definition createPopup (text : PlainText) (p : Page) : Page :=
  let p1 := removePopup p in
  set_popups
    (popups p1 ++
       [{| popup_sub :=
             orElseText text
               (plaintext "Potential malicious activity detected") |}])
    p1.

(** [querySelectorAll('#device-grid .threat')]: of each card, the threat
    paragraph when its class is [threat].  No other element of a card has
    that class. *)
Definition threatNodes (p : Page) : list string :=
  map (fun c => text_of (card_threat c))
      (filter (fun c => String.eqb (card_threatClass c) "threat") (grid p)).

(** [node.innerText] of a threat paragraph with the given text: the text
    as the paragraph shows it.  The stylesheet of the page is not among
    the sources; the paragraph is taken to be shown with the initial
    [white-space: normal], which collapses white space. *)
Definition innerText (text : string) : string := Js.collapseWhiteSpace text.

Definition existsThreatDetectedInCards (p : Page) : bool :=
  existsb
    (fun node =>
       let txt := Js.trim (orElse (innerText node) "") in
       Js.testWholeIgnoreCase "Threat Detected" txt)
    (threatNodes p).

Definition scanDomForThreat (p : Page) : Page :=
  if existsThreatDetectedInCards p then createPopup (plaintext "") p
  else removePopup p.

(** *** fetchAndRender *)

(** How the two awaits of [fetchAndRender] end: [fetch] rejects,
    [response.json()] rejects, the decoded value is not an array (so
    [devices.forEach] throws in [renderSummary], before any write), or it
    is the device collection. *)
Inductive FetchOutcome :=
| FetchRejected (error : string)
| JsonRejected (error : string)
| NotAnArray (error : string)
| Resolved (devices : list Device).

Definition renderGrid (devices : list Device) (p : Page) : Page :=
  set_grid (map renderCard devices) p.

(** The script with the popup: the scan runs at the end of the try block.
    What follows the second await runs without interruption. *)
Definition fetchAndRender (r : FetchOutcome) (p : Page) : Page :=
  match r with
  | Resolved devices =>
      scanDomForThreat (renderGrid devices (renderSummary devices p))
  | FetchRejected error | JsonRejected error | NotAnArray error =>
      console_add ErrorLevel "Failed to fetch devices:" error p
  end.

(** The earlier draft, [src/frontend/script.js]: the same without the scan. *)
Definition fetchAndRender_draft (r : FetchOutcome) (p : Page) : Page :=
  match r with
  | Resolved devices => renderGrid devices (renderSummary devices p)
  | FetchRejected error | JsonRejected error | NotAnArray error =>
      console_add ErrorLevel "Failed to fetch devices:" error p
  end.

(** *** Socket.IO start-up *)

(** [io(url)] either throws (the client library is absent, or the call
    fails) or returns a socket. *)
Inductive IoOutcome :=
| IoThrows (e : string)
| IoReturns.

(** The try/catch around the socket set-up: the three [socket.on] calls
    when [io] returns, the warning and the polling timer when it throws. *)
Definition socketInit (io : IoOutcome) (p : Page) : Page :=
  match io with
  | IoReturns => set_socket true p
  | IoThrows e =>
      setInterval CbFetchAndRender 3000
        (console_add WarnLevel
           "Socket.IO init failed (fallback to polling):" e p)
  end.

Inductive SocketEvent :=
| Connect (socket_id : string)
| ConnectError (err : string)
| DeviceUpdate (payload : string).

(** The handlers registered by [socket.on].  The handler of
    [device_update] also calls [fetchAndRender]; that call is an
    asynchronous function and its effect on the page is the later event
    [Refresh] below. *)
Definition socketOn (ev : SocketEvent) (p : Page) : Page :=
  if socket p then
    match ev with
    | Connect socket_id => console_add LogLevel "Socket connected:" socket_id p
    | ConnectError err => console_add ErrorLevel "Socket connect_error:" err p
    | DeviceUpdate payload => console_add LogLevel "Real-time update:" payload p
    end
  else p.

(** *** Runs of the page *)

(** What can happen to the page once the script is loaded: a call of
    [fetchAndRender] completes (initial load, push hint, user action or
    timer), the scan runs on its own (mutation observer, load event), one
    of the two test helpers is called, or the socket delivers an event.
    The message of the test helper goes into the markup of the popup; it
    is a plain text as well. *)
Inductive Event :=
| Refresh (r : FetchOutcome)
| Scan
| TriggerThreatPopupForTest (msg : PlainText)
| RemoveThreatPopup
| Socket (ev : SocketEvent).

Definition handle (e : Event) (p : Page) : Page :=
  match e with
  | Refresh r => fetchAndRender r p
  | Scan => scanDomForThreat p
  | TriggerThreatPopupForTest msg =>
      createPopup (orElseText msg (plaintext "Simulated threat for testing")) p
  | RemoveThreatPopup => removePopup p
  | Socket ev => socketOn ev p
  end.

Definition run (events : list Event) (p : Page) : Page :=
  fold_left (fun q e => handle e q) events p.

(** Every page seen along a run: the start and the page after each event. *)
Fixpoint observations (events : list Event) (p : Page) : list Page :=
  match events with
  | [] => [p]
  | e :: rest => p :: observations rest (handle e p)
  end.

(** The page before the script has run: nothing rendered, no popup. *)
Definition blankPage : Page :=
  {| summary := ""; grid := []; popups := []; console := [];
     intervals := []; socket := false |}.

(** *** Vocabulary of the statements *)

(** The phrase the scan looks for. *)
Definition sentinel : string := "Threat Detected".

(** The popup that [scanDomForThreat] creates. *)
Definition alertPopup : Popup :=
  {| popup_sub := plaintext "Potential malicious activity detected" |}.

(** The page has no popup or one. *)
Definition atMostOne (p : Page) : Prop := (List.length (popups p) <= 1)%nat.

(** What the scan reads of the threat field of [d]: the text its
    paragraph shows, trimmed. *)
Definition shownThreat (d : Device) : string :=
  Js.trim (innerText (threat d)).

(** That text is the sentinel as a whole, up to letter case. *)
Definition fieldMatches (d : Device) : bool :=
  Js.testWholeIgnoreCase sentinel (shownThreat d).

(** The page of [fetchAndRender] just before its scan. *)
Definition rendered (devices : list Device) (p : Page) : Page :=
  renderGrid devices (renderSummary devices p).

(** The fetch or the decoding failed; the error caught. *)
Definition failed (r : FetchOutcome) : bool :=
  match r with
  | Resolved _ => false
  | _ => true
  end.

Definition error_of (r : FetchOutcome) : string :=
  match r with
  | FetchRejected e | JsonRejected e | NotAnArray e => e
  | Resolved _ => ""
  end.

(** The line [console.error("Failed to fetch devices:", error)]. *)
Definition fetchFailureLine (r : FetchOutcome) : ConsoleLine :=
  {| line_level := ErrorLevel;
     line_message := "Failed to fetch devices:";
     line_value := error_of r |}.

(** The line [console.warn("Socket.IO init failed ...", e)]. *)
Definition initFailureLine (e : string) : ConsoleLine :=
  {| line_level := WarnLevel;
     line_message := "Socket.IO init failed (fallback to polling):";
     line_value := e |}.

(** [setInterval(fetchAndRender, 3000)]. *)
Definition pollingTimer : Callback * Z := (CbFetchAndRender, 3000).

(** Sample devices and a sample page. *)
Definition quietDevice : Device :=
  {| id := 1; name_text := plaintext "Hall sensor";
     type_text := plaintext "Generic Sensor";
     data_text := plaintext "21.5 C"; threat_text := plaintext "No Threat";
     location_text := plaintext "Hall";
     last_seen_text := plaintext "2024-01-01T10:00:00";
     power := JsNumber 1 |}.

Definition with_threat (text : PlainText) (d : Device) : Device :=
  {| id := id d; name_text := name_text d; type_text := type_text d;
     data_text := data_text d; threat_text := text;
     location_text := location_text d; last_seen_text := last_seen_text d;
     power := power d |}.

Definition porchCamera : Device :=
  {| id := 12; name_text := plaintext "Porch";
     type_text := plaintext "Camera"; data_text := plaintext "";
     threat_text := plaintext "No Threat";
     location_text := plaintext "Porch"; last_seen_text := plaintext "";
     power := JsBool true |}.

Definition lowerCaseDevice : Device :=
  with_threat (plaintext "threat detected") quietDevice.

Definition lastGood : Page :=
  fetchAndRender
    (Resolved [quietDevice;
               with_threat (plaintext "Threat Detected") quietDevice])
    blankPage.

End Dashboard.

(* ================================================================== *)
(** ** The edge telemetry sketch *)

Module Edge.

(** [unsigned long] has 32 bits on the ESP8266: its arithmetic wraps. *)
Definition ulong (z : Z) : Z := z mod 2 ^ 32.

(** What the board and its libraries report, each as a function of the
    uptime in milliseconds at which the sketch asks.  [float] is the C type
    of the sensor readings; [String2] is [String(x, 2)]; [strftime_iso] is
    [gmtime_r] followed by [strftime] with [%Y-%m-%dT%H:%M:%S]. *)
Record Hardware := {
  float : Type;
  isnan : float -> bool;
  String2 : float -> string;
  WiFi_connected : Z -> bool;
  WiFi_localIP : Z -> string;
  time : Z -> Z;
  readHumidity : Z -> float;
  readTemperature : Z -> float;
  strftime_iso : Z -> string;
  http_begin : Z -> bool;
  http_POST : Z -> string -> Z;
  http_getString : Z -> string;
  http_errorToString : Z -> string
}.

(** What the sketch does to the outside, in order.  [WiFi_begin] carries
    the uptime at which [WiFi.begin(ssid, password)] is called. *)
Inductive Output :=
| Serial_print (text : string)
| Serial_println (text : string)
| WiFi_mode_STA
| WiFi_begin (at_ms : Z)
| WiFi_disconnect
| OTA_begin
| OTA_handle
| configTime
| HTTP_POST (json : string)
| HTTP_end.

(** The sketch's globals, the uptime (milliseconds since power-on, not
    wrapped) and the outputs so far. *)
Record Sketch := {
  uptime : Z;
  WIFI_RECONNECT_INTERVAL_MS : Z;
  SEND_INTERVAL_MS : Z;
  lastWifiAttempt : Z;
  lastSend : Z;
  out : list Output
}.

(** The sketch exists in two drafts: the later one waits for NTP and
    formats the fallback timestamp and has OTA commented out; the earlier
    one has OTA and returns [String(millis())] as fallback. *)
Inductive Draft := Later | Earlier.

(** *** A state monad for the sketch *)

Definition M (A : Type) : Type := Sketch -> A * Sketch.

Definition ret {A} (a : A) : M A := fun s => (a, s).

Definition bind {A B} (m : M A) (k : A -> M B) : M B :=
  fun s => let (a, s') := m s in k a s'.

Notation "x <- m ;; k" := (bind m (fun x => k))
  (at level 61, m at next level, right associativity).
Notation "m ;; k" := (bind m (fun _ => k))
  (at level 61, right associativity).

Definition exec {A} (m : M A) (s : Sketch) : Sketch := snd (m s).
Definition eval {A} (m : M A) (s : Sketch) : A := fst (m s).

Definition emit (o : Output) : M unit :=
  fun s => (tt, {| uptime := uptime s;
                   WIFI_RECONNECT_INTERVAL_MS := WIFI_RECONNECT_INTERVAL_MS s;
                   SEND_INTERVAL_MS := SEND_INTERVAL_MS s;
                   lastWifiAttempt := lastWifiAttempt s;
                   lastSend := lastSend s;
                   out := out s ++ [o] |}).

Definition elapse (ms : Z) (s : Sketch) : Sketch :=
  {| uptime := uptime s + ms;
     WIFI_RECONNECT_INTERVAL_MS := WIFI_RECONNECT_INTERVAL_MS s;
     SEND_INTERVAL_MS := SEND_INTERVAL_MS s;
     lastWifiAttempt := lastWifiAttempt s;
     lastSend := lastSend s;
     out := out s |}.

Definition delay (ms : Z) : M unit := fun s => (tt, elapse ms s).

Definition millis : M Z := fun s => (ulong (uptime s), s).

Definition now_ms : M Z := fun s => (uptime s, s).

Definition read {A} (f : Sketch -> A) : M A := fun s => (f s, s).

Definition set_lastWifiAttempt (v : Z) : M unit :=
  fun s => (tt, {| uptime := uptime s;
                   WIFI_RECONNECT_INTERVAL_MS := WIFI_RECONNECT_INTERVAL_MS s;
                   SEND_INTERVAL_MS := SEND_INTERVAL_MS s;
                   lastWifiAttempt := v;
                   lastSend := lastSend s;
                   out := out s |}).

Definition set_lastSend (v : Z) : M unit :=
  fun s => (tt, {| uptime := uptime s;
                   WIFI_RECONNECT_INTERVAL_MS := WIFI_RECONNECT_INTERVAL_MS s;
                   SEND_INTERVAL_MS := SEND_INTERVAL_MS s;
                   lastWifiAttempt := lastWifiAttempt s;
                   lastSend := v;
                   out := out s |}).

(** *** Formatting *)

Definition dq : string := String (ascii_of_nat 34) "".

(** [%02lu]: the decimal digits, padded with a zero to two characters. *)
Definition fmt_02lu (n : Z) : string :=
  if n <? 10 then "0" ++ Js.decimal n else Js.decimal n.

(** [%d]. *)
Definition fmt_d (n : Z) : string :=
  if n <? 0 then "-" ++ Js.decimal (- n) else Js.decimal n.

(** [snprintf(buf, size, ...)] keeps at most [size - 1] characters. *)
Definition snprintf (size : nat) (text : string) : string :=
  substring 0 (size - 1) text.

(** The timestamp layout [YYYY-MM-DDTHH:MM:SS]. *)
Definition isoShape (s : string) : bool :=
  match list_ascii_of_string s with
  | [y1; y2; y3; y4; d1; m1; m2; d2; a1; a2; t; h1; h2; c1; n1; n2; c2; s1; s2] =>
      (Js.isDigit y1 && Js.isDigit y2 && Js.isDigit y3 && Js.isDigit y4
       && Ascii.eqb d1 "-" && Js.isDigit m1 && Js.isDigit m2
       && Ascii.eqb d2 "-" && Js.isDigit a1 && Js.isDigit a2
       && Ascii.eqb t "T" && Js.isDigit h1 && Js.isDigit h2
       && Ascii.eqb c1 ":" && Js.isDigit n1 && Js.isDigit n2
       && Ascii.eqb c2 ":" && Js.isDigit s1 && Js.isDigit s2)%bool
  | _ => false
  end.

Section Firmware.

Variable hw : Hardware.
Variable draft : Draft.

Definition DEVICE_ID : Z := 1.

Definition WiFi_status_connected : M bool :=
  fun s => (WiFi_connected hw (uptime s), s).

Definition WiFi_begin_call : M unit :=
  t <- now_ms ;; emit (WiFi_begin t).

(** *** setupWiFi *)

Fixpoint setupWiFi_wait (fuel : nat) (start : Z) : M unit :=
  match fuel with
  | O => ret tt
  | S fuel' =>
      connected <- WiFi_status_connected ;;
      if connected then ret tt
      else
        delay 150 ;;
        emit (Serial_print ".") ;;
        now <- millis ;;
        if ulong (now - start) >? 10000 then ret tt
        else setupWiFi_wait fuel' start
  end.

(** Every turn of the wait loop adds 150 ms, so it leaves after at most 67
    turns by its own test. *)
Definition setupWiFi : M unit :=
  emit WiFi_mode_STA ;;
  WiFi_begin_call ;;
  emit (Serial_print "Connecting to WiFi") ;;
  start <- millis ;;
  setupWiFi_wait 68 start ;;
  connected <- WiFi_status_connected ;;
  if connected then
    emit (Serial_println "") ;;
    emit (Serial_print "WiFi connected, IP: ") ;;
    t <- now_ms ;;
    emit (Serial_println (WiFi_localIP hw t))
  else
    emit (Serial_println "") ;;
    emit (Serial_println "WiFi connect attempt timed out.").

(** *** getIsoTimestamp *)

Definition time_nullptr : M Z := fun s => (time hw (uptime s), s).

Fixpoint ntp_wait (fuel : nat) (start now : Z) : M Z :=
  match fuel with
  | O => ret now
  | S fuel' =>
      m <- millis ;;
      if ulong (m - start) <? 2000 then
        delay 200 ;;
        now' <- time_nullptr ;;
        if now' >? 1000 then ret now' else ntp_wait fuel' start now'
      else ret now
  end.

(** The later draft.  Every turn of the wait loop adds 200 ms, so it leaves
    after at most 10 turns by its own test. *)
Definition getIsoTimestamp_later : M string :=
  now <- time_nullptr ;;
  now <- (if now <=? 1000 then
            start <- millis ;; ntp_wait 11 start now
          else ret now) ;;
  if now <=? 1000 then
    ms <- millis ;;
    let sec := ms / 1000 in
    let hh := (sec / 3600) mod 24 in
    let mm := (sec / 60) mod 60 in
    let ss := sec mod 60 in
    ret (snprintf 32
           ("1970-01-01T" ++ fmt_02lu hh ++ ":" ++ fmt_02lu mm ++ ":"
            ++ fmt_02lu ss))
  else ret (strftime_iso hw now).

(** The earlier draft. *)
Definition getIsoTimestamp_earlier : M string :=
  now <- time_nullptr ;;
  if now <=? 1000 then
    ms <- millis ;; ret (Js.decimal ms)
  else ret (strftime_iso hw now).

Definition getIsoTimestamp : M string :=
  match draft with
  | Later => getIsoTimestamp_later
  | Earlier => getIsoTimestamp_earlier
  end.

(** *** setup *)

Definition setupOTA : M unit :=
  emit OTA_begin ;; emit (Serial_println "OTA ready").

Definition setupTime : M unit := emit configTime.

Definition setup : M unit :=
  emit (Serial_println (Js.newline ++ "Starting ESP Weather Node")) ;;
  setupWiFi ;;
  match draft with
  | Later => ret tt
  | Earlier => setupOTA
  end ;;
  setupTime.

(** *** reconnectIfNeeded *)

Definition reconnectIfNeeded : M unit :=
  connected <- WiFi_status_connected ;;
  if connected then ret tt
  else
    now <- millis ;;
    last <- read lastWifiAttempt ;;
    interval <- read WIFI_RECONNECT_INTERVAL_MS ;;
    if ulong (now - last) <? interval then ret tt
    else
      set_lastWifiAttempt now ;;
      emit (Serial_println "WiFi dropped. Reconnecting...") ;;
      emit WiFi_disconnect ;;
      WiFi_begin_call.

(** *** sendSensorData *)

Definition sendSensorData : M unit :=
  t0 <- now_ms ;;
  let h := readHumidity hw t0 in
  let t := readTemperature hw t0 in
  if (isnan hw h || isnan hw t)%bool then
    emit (Serial_println "DHT read failed.")
  else
    timestamp <- getIsoTimestamp ;;
    let json :=
      "{" ++ dq ++ "device_id" ++ dq ++ ": " ++ fmt_d DEVICE_ID ++ ","
      ++ dq ++ "timestamp" ++ dq ++ ": " ++ dq ++ timestamp ++ dq ++ ","
      ++ dq ++ "temperature" ++ dq ++ ": " ++ String2 hw t ++ ","
      ++ dq ++ "humidity" ++ dq ++ ": " ++ String2 hw h ++ ","
      ++ dq ++ "motion" ++ dq ++ ": 0"
      ++ "}" in
    emit (Serial_println ("Sending JSON:" ++ Js.newline ++ json)) ;;
    t1 <- now_ms ;;
    if http_begin hw t1 then
      let code := http_POST hw t1 json in
      emit (HTTP_POST json) ;;
      (if code >? 0 then
         emit (Serial_print ("HTTP " ++ fmt_d code ++ " → "
                             ++ http_getString hw t1 ++ Js.newline))
       else
         emit (Serial_print ("POST failed: " ++ http_errorToString hw code
                             ++ Js.newline))) ;;
      emit HTTP_end
    else emit (Serial_println "HTTP begin() FAILED").

(** *** loop *)

Definition loop : M unit :=
  match draft with
  | Later => ret tt
  | Earlier => emit OTA_handle
  end ;;
  reconnectIfNeeded ;;
  now <- millis ;;
  last <- read lastSend ;;
  interval <- read SEND_INTERVAL_MS ;;
  (if ulong (now - last) >=? interval then
     set_lastSend now ;;
     connected <- WiFi_status_connected ;;
     if connected then sendSensorData
     else emit (Serial_println "WiFi not connected. Skipping.")
   else ret tt) ;;
  delay 10.

(** *** Executions *)

(** The globals as initialised, [t0] milliseconds after power-on, when the
    core calls [setup]. *)
Definition power_on (t0 : N) : Sketch :=
  {| uptime := Z.of_N t0;
     WIFI_RECONNECT_INTERVAL_MS := 5000;
     SEND_INTERVAL_MS := 5000;
     lastWifiAttempt := 0;
     lastSend := 0;
     out := [] |}.

(** After [setup] the core calls [loop] again and again; between two calls,
    and in calls that block, time passes. *)
Inductive Action :=
| Loop
| Pass (ms : N).

Definition act (a : Action) (s : Sketch) : Sketch :=
  match a with
  | Loop => exec loop s
  | Pass ms => elapse (Z.of_N ms) s
  end.

Definition run (schedule : list Action) (s : Sketch) : Sketch :=
  fold_left (fun q a => act a q) schedule s.

Definition after_setup (t0 : N) : Sketch := exec setup (power_on t0).

Definition firmware (t0 : N) (schedule : list Action) : Sketch :=
  run schedule (after_setup t0).

End Firmware.

(** The uptimes of the calls of [WiFi.begin] among the outputs. *)
Fixpoint attempts (l : list Output) : list Z :=
  match l with
  | [] => []
  | WiFi_begin t :: rest => t :: attempts rest
  | _ :: rest => attempts rest
  end.

(** The bodies of the requests made, among the outputs. *)
Fixpoint posts (l : list Output) : list string :=
  match l with
  | [] => []
  | HTTP_POST json :: rest => json :: posts rest
  | _ :: rest => posts rest
  end.

(** Any two entries of [l], the later at least [d] after the earlier. *)
Fixpoint separated (d : Z) (l : list Z) : Prop :=
  match l with
  | [] => True
  | t :: rest => Forall (fun t' => t + d <= t') rest /\ separated d rest
  end.

(** *** Vocabulary of the statements *)

(** [m] calls [WiFi.begin] nowhere, leaves the reconnect bookkeeping
    alone, and lets no time run backwards. *)
Definition quiet {A} (m : M A) : Prop :=
  forall s, exists emitted,
    out (snd (m s)) = (out s ++ emitted)%list
    /\ attempts emitted = []
    /\ lastWifiAttempt (snd (m s)) = lastWifiAttempt s
    /\ WIFI_RECONNECT_INTERVAL_MS (snd (m s)) = WIFI_RECONNECT_INTERVAL_MS s
    /\ uptime s <= uptime (snd (m s)).

(** Each entry of [l] is at least [d] after the one before it, the first
    at least [d] after [prev]. *)
Fixpoint spaced (d prev : Z) (l : list Z) : Prop :=
  match l with
  | [] => True
  | t :: rest => prev + d <= t /\ spaced d t rest
  end.

(** A step of the sketch that respects the backoff: started with
    [lastWifiAttempt] holding the (wrapped) uptime [T0] of the last
    recorded attempt, its attempts come at least the interval after [T0]
    and after one another, and [lastWifiAttempt] ends holding the last of
    them. *)
Definition paced (f : Sketch -> Sketch) : Prop :=
  forall s T0,
    0 <= WIFI_RECONNECT_INTERVAL_MS s ->
    0 <= T0 <= uptime s ->
    lastWifiAttempt s = ulong T0 ->
    exists emitted,
      out (f s) = (out s ++ emitted)%list
      /\ WIFI_RECONNECT_INTERVAL_MS (f s) = WIFI_RECONNECT_INTERVAL_MS s
      /\ spaced (WIFI_RECONNECT_INTERVAL_MS s) T0 (attempts emitted)
      /\ last (attempts emitted) T0 <= uptime (f s)
      /\ lastWifiAttempt (f s) = ulong (last (attempts emitted) T0).

(** What [setup] does after the call of [WiFi.begin]. *)
Definition setup_rest hw draft : M unit :=
  (emit (Serial_print "Connecting to WiFi") ;;
   start <- millis ;;
   setupWiFi_wait hw 68 start ;;
   connected <- WiFi_status_connected hw ;;
   if connected then
     emit (Serial_println "") ;;
     emit (Serial_print "WiFi connected, IP: ") ;;
     t <- now_ms ;;
     emit (Serial_println (WiFi_localIP hw t))
   else
     emit (Serial_println "") ;;
     emit (Serial_println "WiFi connect attempt timed out.")) ;;
  match draft with
  | Later => ret tt
  | Earlier => setupOTA
  end ;;
  setupTime.

(** [%02lu] of a number below 100 is two digits. *)
Definition twoDigits (text : string) : bool :=
  match text with
  | String a (String b EmptyString) => (Js.isDigit a && Js.isDigit b)%bool
  | _ => false
  end.

(** The three fields of the fallback timestamp, from the milliseconds of
    uptime. *)
Definition fallbackText (ms : Z) : string :=
  let sec := ms / 1000 in
  "1970-01-01T" ++ fmt_02lu ((sec / 3600) mod 24) ++ ":"
  ++ fmt_02lu ((sec / 60) mod 60) ++ ":" ++ fmt_02lu (sec mod 60).

(** A board whose link, wall clock and sensor are given as functions of
    the uptime; a reading is in hundredths, [None] is NaN.  [String(x, 2)]
    prints the sign, the whole part and the two decimals of the
    magnitude. *)
Definition bench (link : Z -> bool) (clock : Z -> Z) (dht : Z -> option Z)
  : Hardware :=
  {| float := option Z;
     isnan := fun x => match x with None => true | Some _ => false end;
     String2 := fun x =>
       match x with
       | None => "nan"
       | Some c =>
           (if c <? 0 then "-" else "")
           ++ Js.decimal (Z.abs c / 100) ++ "."
           ++ fmt_02lu (Z.abs c mod 100)
       end;
     WiFi_connected := link;
     WiFi_localIP := fun _ => "10.235.221.57";
     time := clock;
     readHumidity := dht;
     readTemperature := dht;
     strftime_iso := fun _ => "2024-05-01T10:00:00";
     http_begin := fun _ => true;
     http_POST := fun _ _ => 200;
     http_getString := fun _ => "ok";
     http_errorToString := fun _ => "connection refused" |}.

(** The link comes up 2 s after power-on and is lost again at 3 s; the
    wall clock is never set. *)
Definition flakyBoard : Hardware :=
  bench (fun t => (2000 <=? t) && (t <? 3000))%bool
        (fun _ => 0) (fun _ => Some 2150).

(** The link is up, the wall clock is never set, the sensor fails. *)
Definition faultyBoard : Hardware :=
  bench (fun _ => true) (fun _ => 0) (fun _ => None).

(** The link is up, the wall clock is never set, the sensor works. *)
Definition unsyncedBoard : Hardware :=
  bench (fun _ => true) (fun _ => 0) (fun _ => Some 2150).

End Edge.

(* ================================================================== *)
(** ** The dashboard's controls *)

(** The functions of the browser script that talk to the backend on a
    user's action: [togglePower], [deleteDevice], the handler of
    [#add-device] and the handler of the emergency button. *)
Module Controls.

Definition API_URL : string := "http://localhost:8000/api".

(** [Number.isSafeInteger(n)]: an integer below 2^53 in magnitude.  A
    JavaScript number holds such an integer exactly. *)
Definition isSafeInteger (n : Z) : bool := Z.abs n <? 2 ^ 53.

(** [`${n}`] for a number that is a safe integer: its decimal digits,
    after a minus sign when it is negative.  Larger integers are outside
    the embedding: a number does not hold every one of them, and from
    10^21 on the text has an exponent. *)
Definition integer (n : Z) : string :=
  if n <? 0 then "-" ++ Js.decimal (- n) else Js.decimal n.

(** The value of a string of decimal digits, read from the left on top of
    [v]; [parseDecimal] reads it from 0. *)
Fixpoint parseFrom (v : Z) (s : string) : Z :=
  match s with
  | EmptyString => v
  | String c r => parseFrom (10 * v + (Z.of_nat (nat_of_ascii c) - 48)) r
  end.

Definition parseDecimal (s : string) : Z := parseFrom 0 s.

(** A call of [fetch] with a method: the method, the URL and the body. *)
Record Request := {
  method : string;
  url : string;
  body : string
}.

(** The emergency button, what the script has shown and asked, the
    requests it has made, the calls of [fetchAndRender] it has started,
    and the handlers of the emergency button that wait for their answer,
    each with the label it read when it started. *)
Record Ui := {
  btn_text : string;
  btn_disabled : bool;
  alerts : list string;
  confirms : list string;
  requests : list Request;
  refreshes : nat;
  waiting : list string
}.

Definition toggleUrl (id : Z) : string :=
  API_URL ++ "/devices/" ++ integer id ++ "/toggle".

Definition deleteUrl (id : Z) : string :=
  API_URL ++ "/devices/" ++ integer id.

Definition send (r : Request) (u : Ui) : Ui :=
  {| btn_text := btn_text u; btn_disabled := btn_disabled u;
     alerts := alerts u; confirms := confirms u;
     requests := requests u ++ [r]; refreshes := refreshes u;
     waiting := waiting u |}.

(** A call of [fetchAndRender()], not awaited. *)
Definition startRefresh (u : Ui) : Ui :=
  {| btn_text := btn_text u; btn_disabled := btn_disabled u;
     alerts := alerts u; confirms := confirms u;
     requests := requests u; refreshes := S (refreshes u);
     waiting := waiting u |}.

Definition alert (text : string) (u : Ui) : Ui :=
  {| btn_text := btn_text u; btn_disabled := btn_disabled u;
     alerts := alerts u ++ [text]; confirms := confirms u;
     requests := requests u; refreshes := refreshes u;
     waiting := waiting u |}.

Definition confirm (text : string) (u : Ui) : Ui :=
  {| btn_text := btn_text u; btn_disabled := btn_disabled u;
     alerts := alerts u; confirms := confirms u ++ [text];
     requests := requests u; refreshes := refreshes u;
     waiting := waiting u |}.

Definition set_button (text : string) (disabled : bool) (u : Ui) : Ui :=
  {| btn_text := text; btn_disabled := disabled;
     alerts := alerts u; confirms := confirms u;
     requests := requests u; refreshes := refreshes u;
     waiting := waiting u |}.

Definition set_waiting (l : list string) (u : Ui) : Ui :=
  {| btn_text := btn_text u; btn_disabled := btn_disabled u;
     alerts := alerts u; confirms := confirms u;
     requests := requests u; refreshes := refreshes u;
     waiting := l |}.

(** [await fetch(...)] of the three simple actions either resolves (with
    any HTTP status) or rejects; nothing catches the rejection, so what
    follows the await does not run. *)
Definition togglePower (id : Z) (resolved : bool) (u : Ui) : Ui :=
  let u1 := send {| method := "POST"; url := toggleUrl id; body := "" |} u in
  if resolved then startRefresh u1 else u1.

Definition deleteDevice (id : Z) (confirmed resolved : bool) (u : Ui) : Ui :=
  let u0 := confirm "Are you sure you want to delete this device?" u in
  if confirmed then
    let u1 := send {| method := "DELETE"; url := deleteUrl id; body := "" |}
                   u0 in
    if resolved then startRefresh u1 else u1
  else u0.

(** [JSON.stringify({name: "New Sensor", type: "Generic Sensor"})]. *)
Definition newDeviceJson : string :=
  "{" ++ Js.dquote ++ "name" ++ Js.dquote ++ ":" ++ Js.dquote ++ "New Sensor"
  ++ Js.dquote ++ "," ++ Js.dquote ++ "type" ++ Js.dquote ++ ":" ++ Js.dquote
  ++ "Generic Sensor" ++ Js.dquote ++ "}".

Definition addDevice (resolved : bool) (u : Ui) : Ui :=
  let u1 := send {| method := "POST"; url := API_URL ++ "/devices";
                    body := newDeviceJson |} u in
  if resolved then startRefresh u1 else u1.

(** The handler of the emergency button runs in two parts.  Up to its
    first await it reads the label, writes "Analyzing...", disables the
    button and sends the request.  A disabled button delivers no click, so
    a click on it starts nothing. *)
Definition emergencyClick (u : Ui) : Ui :=
  if btn_disabled u then u
  else
    let originalText := btn_text u in
    send {| method := "POST"; url := API_URL ++ "/emergency-check";
            body := "" |}
      (set_button "Analyzing..." true
         (set_waiting (waiting u ++ [originalText]) u)).

(** How the two awaits of the handler end: with the decoded answer, or
    with a rejection of [fetch] or of [res.json()]. *)
Inductive Answer :=
| Checked (message : string) (devices_checked : Z)
| Failed.

Fixpoint remove_nth {A} (k : nat) (l : list A) : list A :=
  match k, l with
  | _, [] => []
  | O, _ :: rest => rest
  | S k', a :: rest => a :: remove_nth k' rest
  end.

(** The rest of the handler that is [k]-th in waiting: the try block after
    the awaits, or the catch block, and then the finally block. *)
Definition emergencyDone (k : nat) (a : Answer) (u : Ui) : Ui :=
  match nth_error (waiting u) k with
  | None => u
  | Some originalText =>
      let u1 :=
        match a with
        | Checked message devices_checked =>
            startRefresh
              (alert (message ++ " (" ++ integer devices_checked
                      ++ " devices scanned)") u)
        | Failed => alert "Error connecting to AI Check" u
        end in
      set_button originalText false
        (set_waiting (remove_nth k (waiting u)) u1)
  end.

(** What the user and the backend do, one after the other. *)
Inductive Action :=
| Toggle (id : Z) (resolved : bool)
| Delete (id : Z) (confirmed resolved : bool)
| Add (resolved : bool)
| EmergencyClick
| EmergencyAnswer (k : nat) (a : Answer).

Definition perform (a : Action) (u : Ui) : Ui :=
  match a with
  | Toggle id resolved => togglePower id resolved u
  | Delete id confirmed resolved => deleteDevice id confirmed resolved u
  | Add resolved => addDevice resolved u
  | EmergencyClick => emergencyClick u
  | EmergencyAnswer k a => emergencyDone k a u
  end.

Definition session (actions : list Action) (u : Ui) : Ui :=
  fold_left (fun v a => perform a v) actions u.

(** The page as loaded: the button enabled with its label, nothing shown
    or sent yet. *)
Definition loaded (label : string) : Ui :=
  {| btn_text := label; btn_disabled := false; alerts := [];
     confirms := []; requests := []; refreshes := 0; waiting := [] |}.

(** *** Vocabulary of the statements *)

(** No check is waiting and the button is enabled with label [label], or
    one check is waiting, started from that label, and the button is
    disabled and reads "Analyzing...". *)
Definition buttonOk (label : string) (u : Ui) : Prop :=
  (waiting u = [] /\ btn_disabled u = false /\ btn_text u = label)
  \/ (waiting u = [label] /\ btn_disabled u = true
      /\ btn_text u = "Analyzing...").

Definition isDelete (r : Request) : bool := String.eqb (method r) "DELETE".

Definition isEmergency (r : Request) : bool :=
  String.eqb (url r) (API_URL ++ "/emergency-check").

Definition confirmedDelete (a : Action) : bool :=
  match a with
  | Delete _ confirmed _ => confirmed
  | _ => false
  end.

(** The action ends with the answer to a request of its own: the fetch
    of a toggle, of a confirmed delete or of an add resolves, or an
    emergency check that waits gets its decoded answer. *)
Definition resolves (a : Action) (u : Ui) : bool :=
  match a with
  | Toggle _ resolved => resolved
  | Delete _ confirmed resolved => (confirmed && resolved)%bool
  | Add resolved => resolved
  | EmergencyClick => false
  | EmergencyAnswer k (Checked _ _) =>
      match nth_error (waiting u) k with
      | Some _ => true
      | None => false
      end
  | EmergencyAnswer _ Failed => false
  end.

(** The requests answered or abandoned so far cover the refreshes started,
    and every emergency request has its alert or still waits. *)
Definition accounted (u : Ui) : Prop :=
  (refreshes u + List.length (waiting u) <= List.length (requests u))%nat
  /\ (List.length (alerts u) + List.length (waiting u))%nat
     = List.length (filter isEmergency (requests u)).

End Controls.

(* ================================================================== *)
(** ** Terms for the send schedule of the sketch *)

Module Pace.
Import Edge.

(** [m] makes no request, leaves the send bookkeeping alone, and lets no
    time run backwards. *)
Definition idle {A} (m : M A) : Prop :=
  forall s, exists emitted,
    out (snd (m s)) = (out s ++ emitted)%list
    /\ posts emitted = []
    /\ lastSend (snd (m s)) = lastSend s
    /\ SEND_INTERVAL_MS (snd (m s)) = SEND_INTERVAL_MS s
    /\ uptime s <= uptime (snd (m s)).

(** The send is due in state [s]: the test of [loop], on the wrapped
    clock. *)
Definition due (s : Sketch) : bool :=
  ulong (ulong (uptime s) - lastSend s) >=? SEND_INTERVAL_MS s.

(** A step of the sketch that keeps the send period: started with
    [lastSend] holding the (wrapped) uptime [T] of the last send tick, it
    ends with [lastSend] holding that of a tick [T'] not before [T], and
    its requests, one send interval each, fit between [T] and [T']. *)
Definition metered (f : Sketch -> Sketch) : Prop :=
  forall s T,
    0 <= SEND_INTERVAL_MS s ->
    0 <= T <= uptime s ->
    lastSend s = ulong T ->
    exists emitted T',
      out (f s) = (out s ++ emitted)%list
      /\ SEND_INTERVAL_MS (f s) = SEND_INTERVAL_MS s
      /\ T <= T' <= uptime (f s)
      /\ lastSend (f s) = ulong T'
      /\ SEND_INTERVAL_MS s * Z.of_nat (List.length (posts emitted))
         <= T' - T.

End Pace.

(* ================================================================== *)
(** ** Facts about strings *)

Module JsFacts.
Import Js.

Example trim_both_sides : trim "  Threat Detected " = "Threat Detected".
Proof. reflexivity. Qed.

Example trim_keeps_inner : trim "No  Threat" = "No  Threat".
Proof. reflexivity. Qed.

(** U+00A0 before and U+2003, U+FEFF after the phrase. *)
Example trim_wide_white_space :
  trim (String (ascii_of_nat 194) (String (ascii_of_nat 160) "")
        ++ "Threat Detected"
        ++ String (ascii_of_nat 226) (String (ascii_of_nat 128)
             (String (ascii_of_nat 131) ""))
        ++ String (ascii_of_nat 239) (String (ascii_of_nat 187)
             (String (ascii_of_nat 191) "")))
  = "Threat Detected".
Proof. vm_compute. reflexivity. Qed.

Example collapse_samples :
  collapseWhiteSpace "Threat  Detected" = "Threat Detected"
  /\ collapseWhiteSpace "  No Threat " = "No Threat"
  /\ collapseWhiteSpace (newline ++ " ") = "".
Proof. vm_compute. auto. Qed.

Example decimal_samples :
  decimal 6014 = "6014" /\ decimal 0 = "0"
  /\ decimal 4294967295 = "4294967295".
Proof. vm_compute. auto. Qed.

Example test_samples :
  testWholeIgnoreCase "Threat Detected" "tHREAT dETECTED" = true
  /\ testWholeIgnoreCase "Threat Detected" "Threat Detected!" = false
  /\ testWholeIgnoreCase "Threat Detected" "Threat_Detected" = false.
Proof. vm_compute. auto. Qed.

Lemma test_length lit : forall s,
  testWholeIgnoreCase lit s = true -> String.length s = String.length lit.
Proof.
  induction lit as [|p lit IH]; intros [|c s] H; simpl in *;
    try discriminate; auto.
  apply andb_true_iff in H. destruct H as [_ H]. f_equal. auto.
Qed.

(** *** White space, byte by byte *)

Lemma ws1_low a : isWhiteSpace1 a = true -> (nat_of_ascii a < 128)%nat.
Proof.
  unfold isWhiteSpace1. cbv zeta.
  rewrite !orb_true_iff, !Nat.eqb_eq. lia.
Qed.

Lemma ws2_high a b :
  isWhiteSpace2 a b = true ->
  (128 <= nat_of_ascii a /\ 128 <= nat_of_ascii b)%nat.
Proof.
  unfold isWhiteSpace2. rewrite andb_true_iff, !Nat.eqb_eq. lia.
Qed.

Lemma ws3_high a b c :
  isWhiteSpace3 a b c = true ->
  (128 <= nat_of_ascii a /\ 128 <= nat_of_ascii b
   /\ 128 <= nat_of_ascii c)%nat.
Proof.
  unfold isWhiteSpace3. cbv zeta.
  rewrite !orb_true_iff, !andb_true_iff, !orb_true_iff, !andb_true_iff,
    !Nat.eqb_eq, !Nat.leb_le.
  lia.
Qed.

Lemma high_firm a : (128 <= nat_of_ascii a)%nat -> isCollapsible a = false.
Proof.
  intros H. unfold isCollapsible. cbv zeta.
  repeat (apply orb_false_iff; split); apply Nat.eqb_neq; lia.
Qed.

Lemma high_not_ws1 a : (128 <= nat_of_ascii a)%nat -> isWhiteSpace1 a = false.
Proof.
  intros H. destruct (isWhiteSpace1 a) eqn:E; auto.
  apply ws1_low in E. lia.
Qed.

Lemma high_no_ink a : (128 <= nat_of_ascii a)%nat -> ink a = false.
Proof.
  intros H. unfold ink. apply andb_false_iff. right.
  apply Nat.ltb_ge. exact H.
Qed.

Lemma ws1_no_ink a : isWhiteSpace1 a = true -> ink a = false.
Proof. intros H. unfold ink. now rewrite H. Qed.

Lemma ink_low c : ink c = true -> (nat_of_ascii c < 128)%nat.
Proof.
  unfold ink. rewrite andb_true_iff, Nat.ltb_lt. tauto.
Qed.

Lemma ink_not_ws1 c : ink c = true -> isWhiteSpace1 c = false.
Proof.
  unfold ink. rewrite andb_true_iff, negb_true_iff. tauto.
Qed.

Lemma ink_not_ws2 c b : ink c = true -> isWhiteSpace2 c b = false.
Proof.
  intros H. destruct (isWhiteSpace2 c b) eqn:E; auto.
  apply ws2_high in E. apply ink_low in H. lia.
Qed.

Lemma ink_not_ws3 c a b : ink c = true -> isWhiteSpace3 c a b = false.
Proof.
  intros H. destruct (isWhiteSpace3 c a b) eqn:E; auto.
  apply ws3_high in E. apply ink_low in H. lia.
Qed.

Lemma collapsible_ws1 c : isCollapsible c = true -> isWhiteSpace1 c = true.
Proof.
  unfold isCollapsible, isWhiteSpace1. cbv zeta.
  rewrite !orb_true_iff, !Nat.eqb_eq. lia.
Qed.

Lemma ink_firm c : ink c = true -> isCollapsible c = false.
Proof.
  intros H. destruct (isCollapsible c) eqn:E; auto.
  apply collapsible_ws1 in E. apply ink_not_ws1 in H. congruence.
Qed.

(** *** Strings of white space *)

(** A string of white space is empty, or a white-space character of one,
    two or three bytes followed by a string of white space. *)
Lemma allWhiteSpace_ind (P : string -> Prop) :
  P "" ->
  (forall a s, isWhiteSpace1 a = true -> allWhiteSpace s = true ->
               P s -> P (String a s)) ->
  (forall a b s, isWhiteSpace1 a = false -> isWhiteSpace2 a b = true ->
                 allWhiteSpace s = true -> P s ->
                 P (String a (String b s))) ->
  (forall a b c s, isWhiteSpace1 a = false -> isWhiteSpace2 a b = false ->
                   isWhiteSpace3 a b c = true ->
                   allWhiteSpace s = true -> P s ->
                   P (String a (String b (String c s)))) ->
  forall s, allWhiteSpace s = true -> P s.
Proof.
  intros H0 H1 H2 H3 s.
  assert (K : forall n s, (String.length s <= n)%nat ->
                          allWhiteSpace s = true -> P s).
  { clear s. induction n as [|n IH]; intros s Hn Hs.
    - destruct s; [exact H0|simpl in Hn; lia].
    - destruct s as [|a r1]; [exact H0|].
      cbn [allWhiteSpace] in Hs. simpl in Hn.
      destruct (isWhiteSpace1 a) eqn:E1.
      + apply H1; auto. apply IH; [lia|exact Hs].
      + destruct r1 as [|b r2]; [discriminate|]. simpl in Hn.
        destruct (isWhiteSpace2 a b) eqn:E2.
        * apply H2; auto. apply IH; [lia|exact Hs].
        * destruct r2 as [|c r3]; [discriminate|]. simpl in Hn.
          destruct (isWhiteSpace3 a b c) eqn:E3; [|discriminate].
          apply H3; auto. apply IH; [lia|exact Hs]. }
  exact (K (String.length s) s (Nat.le_refl _)).
Qed.

Lemma allWhiteSpace_1 a s :
  isWhiteSpace1 a = true -> allWhiteSpace (String a s) = allWhiteSpace s.
Proof. intros H. cbn [allWhiteSpace]. now rewrite H. Qed.

Lemma allWhiteSpace_2 a b s :
  isWhiteSpace1 a = false -> isWhiteSpace2 a b = true ->
  allWhiteSpace (String a (String b s)) = allWhiteSpace s.
Proof. intros H1 H2. cbn [allWhiteSpace]. now rewrite H1, H2. Qed.

Lemma allWhiteSpace_3 a b c s :
  isWhiteSpace1 a = false -> isWhiteSpace2 a b = false ->
  isWhiteSpace3 a b c = true ->
  allWhiteSpace (String a (String b (String c s))) = allWhiteSpace s.
Proof. intros H1 H2 H3. cbn [allWhiteSpace]. now rewrite H1, H2, H3. Qed.

Lemma trimStart_ws ws s :
  allWhiteSpace ws = true -> trimStart (ws ++ s) = trimStart s.
Proof.
  intros H. revert ws H.
  apply (allWhiteSpace_ind (fun ws => trimStart (ws ++ s) = trimStart s)).
  - reflexivity.
  - intros a ws H1 _ IH. cbn [append trimStart]. now rewrite H1.
  - intros a b ws H1 H2 _ IH. cbn [append trimStart]. now rewrite H1, H2.
  - intros a b c ws H1 H2 H3 _ IH. cbn [append trimStart].
    now rewrite H1, H2, H3.
Qed.

Lemma trimStart_ink c r : ink c = true -> trimStart (String c r) = String c r.
Proof.
  intros H. cbn [trimStart]. rewrite (ink_not_ws1 c H).
  destruct r as [|b r]; [reflexivity|]. rewrite (ink_not_ws2 c b H).
  destruct r as [|d r]; [reflexivity|]. now rewrite (ink_not_ws3 c b d H).
Qed.

(** No byte of a string of white space is ink. *)
Lemma allWhiteSpace_no_ink s : allWhiteSpace s = true -> hasInk s = false.
Proof.
  revert s. apply allWhiteSpace_ind.
  - reflexivity.
  - intros a s H1 _ IH. cbn [hasInk]. now rewrite (ws1_no_ink a H1), IH.
  - intros a b s _ H2 _ IH. apply ws2_high in H2. destruct H2 as [Ha Hb].
    cbn [hasInk]. now rewrite (high_no_ink a Ha), (high_no_ink b Hb), IH.
  - intros a b c s _ _ H3 _ IH. apply ws3_high in H3.
    destruct H3 as (Ha & Hb & Hc). cbn [hasInk].
    now rewrite (high_no_ink a Ha), (high_no_ink b Hb), (high_no_ink c Hc), IH.
Qed.

Lemma hasInk_app_l a b : hasInk a = true -> hasInk (a ++ b) = true.
Proof.
  induction a as [|c a IH]; simpl; [discriminate|].
  intros H. apply orb_true_iff in H. apply orb_true_iff.
  destruct H; auto.
Qed.

Lemma lastInk_hasInk s : lastInk s = true -> hasInk s = true.
Proof.
  induction s as [|c s IH]; [discriminate|].
  destruct s as [|d s].
  - simpl. intros ->. reflexivity.
  - intros H. change (lastInk (String d s) = true) in H.
    cbn [hasInk]. cbn [hasInk] in IH. rewrite (IH H). apply orb_true_r.
Qed.

Lemma trimEnd_ws_only ws : allWhiteSpace ws = true -> trimEnd ws = "".
Proof. intros H. destruct ws; [reflexivity|]. cbn [trimEnd]. now rewrite H. Qed.

(** What ends with ink keeps all of itself when the white space after it
    is trimmed. *)
Lemma trimEnd_ink core : forall ws,
  lastInk core = true -> allWhiteSpace ws = true ->
  trimEnd (core ++ ws) = core.
Proof.
  induction core as [|c core IH]; intros ws Hl Hw; [discriminate|].
  assert (Hn : allWhiteSpace (String c core ++ ws) = false).
  { destruct (allWhiteSpace (String c core ++ ws)) eqn:E; auto.
    apply allWhiteSpace_no_ink in E.
    rewrite (hasInk_app_l _ ws (lastInk_hasInk _ Hl)) in E. discriminate. }
  change (trimEnd (String c core ++ ws))
    with (if allWhiteSpace (String c core ++ ws) then EmptyString
          else String c (trimEnd (core ++ ws))).
  rewrite Hn. f_equal.
  destruct core as [|d core].
  - now apply trimEnd_ws_only.
  - apply IH; auto.
Qed.

(** Trimming white space, then text that starts and ends with ink, then
    white space, gives the text. *)
Lemma trim_padded ws1 c core ws2 :
  allWhiteSpace ws1 = true -> allWhiteSpace ws2 = true ->
  ink c = true -> lastInk (String c core) = true ->
  trim (ws1 ++ String c core ++ ws2) = String c core.
Proof.
  intros H1 H2 Hc Hl. unfold trim.
  rewrite trimStart_ws by assumption.
  change ((String c core ++ ws2)%string) with (String c (core ++ ws2)).
  rewrite trimStart_ink by assumption.
  change (String c (core ++ ws2)) with ((String c core ++ ws2)%string).
  now apply trimEnd_ink.
Qed.

(** *** Collapsing white space *)

Lemma squeeze_firm c r :
  isCollapsible c = false -> squeeze (String c r) = String c (squeeze r).
Proof. intros H. cbn [squeeze]. now rewrite H. Qed.

Lemma append_nil_r (s : string) : (s ++ "")%string = s.
Proof. induction s as [|c s IH]; simpl; [reflexivity|now rewrite IH]. Qed.

(** Collapsing white space in a string of white space leaves a string of
    white space, and what follows it is collapsed on its own. *)
Lemma squeeze_ws ws : allWhiteSpace ws = true ->
  forall y, startsFirm y ->
  exists ws', allWhiteSpace ws' = true
              /\ squeeze (ws ++ y) = (ws' ++ squeeze y)%string.
Proof.
  revert ws.
  apply (allWhiteSpace_ind
           (fun ws => forall y, startsFirm y ->
              exists ws', allWhiteSpace ws' = true
                          /\ squeeze (ws ++ y) = (ws' ++ squeeze y)%string)).
  - intros y _. exists ""%string. split; reflexivity.
  - intros a ws H1 Hw IH y Hy. destruct (IH y Hy) as (ws' & W & E).
    change ((String a ws ++ y)%string) with (String a (ws ++ y)).
    destruct (isCollapsible a) eqn:Ca.
    + cbn [squeeze]. rewrite Ca.
      destruct (ws ++ y)%string as [|d r] eqn:R.
      * exists ""%string. split; [reflexivity|].
        destruct ws; [|discriminate]. simpl in R. now subst y.
      * destruct (isCollapsible d) eqn:Cd.
        -- exists ws'. split; [exact W|]. exact E.
        -- exists (String " " ws'). split.
           ++ rewrite allWhiteSpace_1; [exact W|reflexivity].
           ++ rewrite E. reflexivity.
    + rewrite squeeze_firm by exact Ca. exists (String a ws'). split.
      * rewrite allWhiteSpace_1; assumption.
      * rewrite E. reflexivity.
  - intros a b ws H1 H2 Hw IH y Hy. destruct (IH y Hy) as (ws' & W & E).
    pose proof (ws2_high a b H2) as [Ha Hb].
    change ((String a (String b ws) ++ y)%string)
      with (String a (String b (ws ++ y))).
    rewrite !squeeze_firm by (apply high_firm; assumption).
    exists (String a (String b ws')). split.
    + rewrite allWhiteSpace_2; assumption.
    + rewrite E. reflexivity.
  - intros a b c ws H1 H2 H3 Hw IH y Hy. destruct (IH y Hy) as (ws' & W & E).
    pose proof (ws3_high a b c H3) as (Ha & Hb & Hc).
    change ((String a (String b (String c ws)) ++ y)%string)
      with (String a (String b (String c (ws ++ y)))).
    rewrite !squeeze_firm by (apply high_firm; assumption).
    exists (String a (String b (String c ws'))). split.
    + rewrite allWhiteSpace_3; assumption.
    + rewrite E. reflexivity.
Qed.

(** Skipping the collapsible white space at the start of a string of
    white space leaves a string of white space. *)
Lemma skip_ws ws : allWhiteSpace ws = true ->
  forall c r, isCollapsible c = false ->
  exists ws', allWhiteSpace ws' = true
              /\ skipCollapsible (ws ++ String c r) = (ws' ++ String c r)%string.
Proof.
  revert ws.
  apply (allWhiteSpace_ind
           (fun ws => forall c r, isCollapsible c = false ->
              exists ws', allWhiteSpace ws' = true
                          /\ skipCollapsible (ws ++ String c r)
                             = (ws' ++ String c r)%string)).
  - intros c r Hc. exists ""%string. split; [reflexivity|].
    cbn [append skipCollapsible]. now rewrite Hc.
  - intros a ws H1 Hw IH c r Hc.
    change ((String a ws ++ String c r)%string)
      with (String a (ws ++ String c r)).
    cbn [skipCollapsible]. destruct (isCollapsible a).
    + exact (IH c r Hc).
    + exists (String a ws). split; [|reflexivity].
      rewrite allWhiteSpace_1; assumption.
  - intros a b ws H1 H2 Hw _ c r Hc.
    pose proof (ws2_high a b H2) as [Ha Hb].
    exists (String a (String b ws)). split.
    + rewrite allWhiteSpace_2; assumption.
    + change ((String a (String b ws) ++ String c r)%string)
        with (String a (String b ws ++ String c r)).
      cbn [skipCollapsible]. now rewrite (high_firm a Ha).
  - intros a b c0 ws H1 H2 H3 Hw _ c r Hc.
    pose proof (ws3_high a b c0 H3) as (Ha & Hb & Hc0).
    exists (String a (String b (String c0 ws))). split.
    + rewrite allWhiteSpace_3; assumption.
    + change ((String a (String b (String c0 ws)) ++ String c r)%string)
        with (String a (String b (String c0 ws) ++ String c r)).
      cbn [skipCollapsible]. now rewrite (high_firm a Ha).
Qed.

(** A match of a phrase is left as it is, whatever follows it. *)
Lemma squeeze_match lit : phrase lit -> forall s rest,
  testWholeIgnoreCase lit s = true ->
  squeeze (s ++ rest) = (s ++ squeeze rest)%string.
Proof.
  induction lit as [|p lit IH]; intros Hp [|c s] rest Hm;
    try (simpl in Hm; discriminate).
  - reflexivity.
  - change (testWholeIgnoreCase (String p lit) (String c s))
      with (Ascii.eqb (canonicalize p) (canonicalize c)
            && testWholeIgnoreCase lit s)%bool in Hm.
    apply andb_true_iff in Hm. destruct Hm as [Hc Hm].
    change ((String c s ++ rest)%string) with (String c (s ++ rest)).
    cbn [phrase] in Hp. destruct Hp as [[Hi Hp]|(Hs & Hq & Hp)].
    + rewrite squeeze_firm by (apply ink_firm; auto).
      rewrite (IH Hp s rest Hm). reflexivity.
    + rewrite (Hs c Hc).
      destruct lit as [|q lit]; [contradiction|].
      destruct s as [|d s]; [simpl in Hm; discriminate|].
      assert (Hd : isCollapsible d = false).
      { apply ink_firm. apply Hq.
        simpl in Hm. apply andb_true_iff in Hm. tauto. }
      change ((String " " (String d s) ++ squeeze rest)%string)
        with (String " " (String d s ++ squeeze rest)).
      rewrite <- (IH Hp (String d s) rest Hm).
      change ((String d s ++ rest)%string) with (String d (s ++ rest)).
      change (squeeze (String " " (String d (s ++ rest))))
        with (if isCollapsible d then squeeze (String d (s ++ rest))
              else String " " (squeeze (String d (s ++ rest)))).
      now rewrite Hd.
Qed.

Lemma lastInk_match lit : forall s,
  endsInk lit -> testWholeIgnoreCase lit s = true -> lastInk s = true.
Proof.
  induction lit as [|p lit IH]; intros [|c s] Hl H;
    try (simpl in H; discriminate); try contradiction.
  change (testWholeIgnoreCase (String p lit) (String c s))
    with (Ascii.eqb (canonicalize p) (canonicalize c)
          && testWholeIgnoreCase lit s)%bool in H.
  apply andb_true_iff in H. destruct H as [Hc H].
  destruct lit as [|q lit].
  - destruct s; [|simpl in H; discriminate]. simpl in *. auto.
  - destruct s as [|d s]; [simpl in H; discriminate|].
    change (lastInk (String d s) = true). apply IH; auto.
Qed.

(** A padded match of a phrase, as a paragraph shows it and trimmed, is
    the match. *)
Lemma shown_padded p lit ws1 core ws2 :
  inkPattern p -> phrase (String p lit) -> endsInk (String p lit) ->
  allWhiteSpace ws1 = true -> allWhiteSpace ws2 = true ->
  testWholeIgnoreCase (String p lit) core = true ->
  trim (collapseWhiteSpace (ws1 ++ core ++ ws2)) = core.
Proof.
  intros Hp Hph He H1 H2 Hm.
  destruct core as [|c core]; [simpl in Hm; discriminate|].
  assert (Hc : ink c = true).
  { apply Hp. simpl in Hm. apply andb_true_iff in Hm. tauto. }
  pose proof (lastInk_match _ _ He Hm) as Hl.
  unfold collapseWhiteSpace.
  change ((String c core ++ ws2)%string) with (String c (core ++ ws2)).
  destruct (skip_ws ws1 H1 c (core ++ ws2) (ink_firm c Hc)) as (a & Ha & ->).
  destruct (squeeze_ws a Ha (String c (core ++ ws2)) (ink_firm c Hc))
    as (a' & Ha' & ->).
  change (String c (core ++ ws2)) with ((String c core ++ ws2)%string).
  rewrite (squeeze_match _ Hph _ ws2 Hm).
  destruct (squeeze_ws ws2 H2 "" I) as (b & Hb & E).
  rewrite append_nil_r in E. rewrite E. simpl squeeze. rewrite append_nil_r.
  now apply trim_padded.
Qed.

Lemma ink_by_table p :
  forallb (fun n => let c := ascii_of_nat n in
             negb (Ascii.eqb (canonicalize p) (canonicalize c))
             || ink c)%bool (seq 0 256) = true ->
  inkPattern p.
Proof.
  intros H c Hc. rewrite forallb_forall in H.
  assert (Hin : In (nat_of_ascii c) (seq 0 256)).
  { apply in_seq. pose proof (nat_ascii_bounded c). lia. }
  specialize (H (nat_of_ascii c) Hin).
  rewrite ascii_nat_embedding in H. cbv zeta in H. rewrite Hc in H.
  exact H.
Qed.

Lemma space_by_table p :
  forallb (fun n => let c := ascii_of_nat n in
             negb (Ascii.eqb (canonicalize p) (canonicalize c))
             || Ascii.eqb c " ")%bool (seq 0 256) = true ->
  spacePattern p.
Proof.
  intros H c Hc. rewrite forallb_forall in H.
  assert (Hin : In (nat_of_ascii c) (seq 0 256)).
  { apply in_seq. pose proof (nat_ascii_bounded c). lia. }
  specialize (H (nat_of_ascii c) Hin).
  rewrite ascii_nat_embedding in H. cbv zeta in H. rewrite Hc in H.
  apply Ascii.eqb_eq. exact H.
Qed.

Ltac by_table :=
  first [apply ink_by_table | apply space_by_table]; vm_compute; reflexivity.

Lemma inkPattern_T : inkPattern "T".
Proof. by_table. Qed.

Lemma phrase_sentinel : phrase "Threat Detected".
Proof.
  cbn [phrase].
  repeat first
    [ exact I
    | left; split; [by_table|]
    | right; split; [by_table|split; [by_table|]] ].
Qed.

Lemma endsInk_sentinel : endsInk "Threat Detected".
Proof. simpl. by_table. Qed.

Lemma prefix_app sub : forall a b,
  prefix sub a = true -> prefix sub (a ++ b) = true.
Proof.
  induction sub as [|c sub IH]; intros [|x a] b H; simpl in *;
    try discriminate; auto.
  - destruct b; reflexivity.
  - destruct (ascii_dec c x); [auto|discriminate].
Qed.

Lemma prefix_refl_app sub : forall b, prefix sub (sub ++ b) = true.
Proof.
  induction sub as [|c sub IH]; intros b; simpl.
  - destruct b; reflexivity.
  - destruct (ascii_dec c c); [auto|congruence].
Qed.

Lemma includes_app_r a : forall b sub,
  includes b sub = true -> includes (a ++ b) sub = true.
Proof.
  induction a as [|c a IH]; intros b sub H; simpl; auto.
  rewrite (IH b sub H). apply orb_true_r.
Qed.

Lemma includes_app_l a : forall b sub,
  includes a sub = true -> includes (a ++ b) sub = true.
Proof.
  induction a as [|c a IH]; intros b sub H.
  - simpl in H. rewrite orb_false_r in H.
    destruct sub; [|simpl in H; discriminate].
    destruct b; reflexivity.
  - simpl in H. apply orb_true_iff in H. simpl.
    apply orb_true_iff. destruct H as [H|H].
    + left. exact (prefix_app _ (String c a) b H).
    + right. auto.
Qed.

Lemma includes_here sub b : includes (sub ++ b) sub = true.
Proof.
  destruct sub as [|c sub]; simpl.
  - destruct b; reflexivity.
  - destruct (ascii_dec c c); [|congruence].
    rewrite prefix_refl_app. reflexivity.
Qed.

Lemma digit_isDigit d : 0 <= d < 10 -> isDigit (digit d) = true.
Proof.
  intros H.
  assert (E : d = 0 \/ d = 1 \/ d = 2 \/ d = 3 \/ d = 4 \/ d = 5 \/ d = 6
              \/ d = 7 \/ d = 8 \/ d = 9) by lia.
  repeat (destruct E as [E|E]; [subst; reflexivity|]). subst. reflexivity.
Qed.

Lemma decimal_aux_digits fuel : forall n acc,
  allDigits acc = true -> allDigits (decimal_aux fuel n acc) = true.
Proof.
  induction fuel as [|fuel IH]; intros n acc H; simpl; auto.
  assert (Hd : allDigits (String (digit (n mod 10)) acc) = true).
  { cbn [allDigits]. rewrite H, digit_isDigit; auto.
    apply Z.mod_pos_bound. lia. }
  destruct (n <? 10); auto.
Qed.

Lemma decimal_digits n : allDigits (decimal n) = true.
Proof. apply decimal_aux_digits. reflexivity. Qed.

End JsFacts.

(* ================================================================== *)
(** ** Facts about the dashboard *)

Module DashboardFacts.
Import Js JsFacts Dashboard.

(** *** The popup helpers *)

Lemma popups_removePopup p : popups (removePopup p) = tl (popups p).
Proof.
  unfold removePopup. destruct (popups p) eqn:E; simpl; auto.
Qed.

Lemma popups_createPopup text p :
  popups (createPopup text p) =
  (tl (popups p)
   ++ [{| popup_sub :=
            orElseText text
              (plaintext "Potential malicious activity detected") |}])%list.
Proof. unfold createPopup. simpl. now rewrite popups_removePopup. Qed.

Lemma removePopup_frame p :
  summary (removePopup p) = summary p /\ grid (removePopup p) = grid p
  /\ console (removePopup p) = console p
  /\ intervals (removePopup p) = intervals p
  /\ socket (removePopup p) = socket p.
Proof. unfold removePopup. destruct (popups p); simpl; auto. Qed.

Lemma createPopup_frame text p :
  summary (createPopup text p) = summary p
  /\ grid (createPopup text p) = grid p
  /\ console (createPopup text p) = console p
  /\ intervals (createPopup text p) = intervals p
  /\ socket (createPopup text p) = socket p.
Proof. unfold createPopup. simpl. apply removePopup_frame. Qed.

Lemma scan_frame p :
  summary (scanDomForThreat p) = summary p
  /\ grid (scanDomForThreat p) = grid p
  /\ console (scanDomForThreat p) = console p
  /\ intervals (scanDomForThreat p) = intervals p
  /\ socket (scanDomForThreat p) = socket p.
Proof.
  unfold scanDomForThreat. destruct (existsThreatDetectedInCards p).
  - apply createPopup_frame.
  - apply removePopup_frame.
Qed.

Lemma page_ext p q :
  summary p = summary q -> grid p = grid q -> popups p = popups q ->
  console p = console q -> intervals p = intervals q ->
  socket p = socket q -> p = q.
Proof. destruct p, q; simpl; intros; subst; reflexivity. Qed.

Lemma tl_short {A} (l : list A) : (List.length l <= 1)%nat -> tl l = [].
Proof. destruct l as [|a [|b l]]; simpl; intros; auto. lia. Qed.

Lemma removePopup_atMostOne p : atMostOne p -> popups (removePopup p) = [].
Proof. intros H. rewrite popups_removePopup. now apply tl_short. Qed.

Lemma createPopup_atMostOne text p :
  atMostOne p ->
  popups (createPopup text p) =
  [{| popup_sub :=
        orElseText text (plaintext "Potential malicious activity detected") |}].
Proof.
  intros H. rewrite popups_createPopup, tl_short by exact H. reflexivity.
Qed.

(** The scan reads the grid and nothing else. *)
Lemma exists_only_grid p q :
  grid p = grid q ->
  existsThreatDetectedInCards p = existsThreatDetectedInCards q.
Proof.
  intros H. unfold existsThreatDetectedInCards, threatNodes. now rewrite H.
Qed.

Lemma popups_scan p :
  atMostOne p ->
  popups (scanDomForThreat p) =
  if existsThreatDetectedInCards p then [alertPopup] else [].
Proof.
  intros H. unfold scanDomForThreat.
  destruct (existsThreatDetectedInCards p).
  - now rewrite createPopup_atMostOne.
  - now apply removePopup_atMostOne.
Qed.

Lemma scan_keeps_atMostOne p : atMostOne p -> atMostOne (scanDomForThreat p).
Proof.
  intros H. unfold atMostOne. rewrite popups_scan by exact H.
  destruct (existsThreatDetectedInCards p); simpl; lia.
Qed.

Lemma handle_keeps_atMostOne e p : atMostOne p -> atMostOne (handle e p).
Proof.
  intros H. destruct e as [r| |msg| |ev]; simpl.
  - destruct r; try exact H.
    apply scan_keeps_atMostOne. exact H.
  - now apply scan_keeps_atMostOne.
  - unfold atMostOne. rewrite createPopup_atMostOne by exact H. simpl. lia.
  - unfold atMostOne. rewrite removePopup_atMostOne by exact H. simpl. lia.
  - unfold socketOn. destruct (socket p); [destruct ev|]; exact H.
Qed.

(** *** What the scan decides *)

Lemma orElse_empty a : orElse a "" = a.
Proof. unfold orElse. destruct (String.eqb_spec a ""); congruence. Qed.

(** After rendering, the decision of the scan is a function of the threat
    fields of the devices: the text that the paragraph of some field
    shows, trimmed, is the sentinel up to case.  That a field equal to
    "No Threat" gets the class [no-threat] and is not looked at changes
    nothing, as it does not match either. *)
Lemma exists_after_render devices p :
  existsThreatDetectedInCards (renderGrid devices p) =
  existsb fieldMatches devices.
Proof.
  unfold existsThreatDetectedInCards, threatNodes, renderGrid.
  cbn [grid set_grid].
  induction devices as [|d devices IH]; [reflexivity|].
  cbn [map filter renderCard card_threatClass existsb].
  destruct (String.eqb_spec (threat d) "No Threat") as [E|E].
  - rewrite <- IH. unfold fieldMatches, shownThreat. rewrite E.
    vm_compute (testWholeIgnoreCase sentinel
                  (trim (innerText "No Threat"))).
    reflexivity.
  - replace (String.eqb "threat" "threat") with true by reflexivity.
    replace (String.eqb "no-threat" "threat") with false by reflexivity.
    cbn [map existsb card_threat]. rewrite <- IH.
    unfold fieldMatches, shownThreat, sentinel, threat.
    now rewrite orElse_empty.
Qed.

Lemma popups_after_refresh devices p :
  atMostOne p ->
  popups (fetchAndRender (Resolved devices) p) =
  if existsb fieldMatches devices then [alertPopup] else [].
Proof.
  intros H. cbn [fetchAndRender]. rewrite popups_scan by exact H.
  now rewrite exists_after_render.
Qed.

Lemma length_app (a b : string) :
  String.length (a ++ b) = (String.length a + String.length b)%nat.
Proof. induction a; simpl; auto. Qed.

Lemma includes_summary online offline threats :
  includes (summaryMarkup online offline threats) sentinel = true.
Proof.
  unfold summaryMarkup, badge.
  do 8 apply includes_app_r. apply includes_app_l.
  do 7 apply includes_app_r.
  apply (includes_here sentinel "</span>").
Qed.

(** *** Rendering *)

Lemma rendered_fields devices p :
  summary (rendered devices p) =
    summaryMarkup (countOnline devices) (countOffline devices)
                  (countThreats devices)
  /\ grid (rendered devices p) = map renderCard devices
  /\ popups (rendered devices p) = popups p
  /\ console (rendered devices p) = console p
  /\ intervals (rendered devices p) = intervals p
  /\ socket (rendered devices p) = socket p.
Proof. unfold rendered. simpl. auto 10. Qed.

Lemma refresh_is_scan_of_rendered devices p :
  fetchAndRender (Resolved devices) p = scanDomForThreat (rendered devices p).
Proof. reflexivity. Qed.

Lemma fieldMatches_length d :
  fieldMatches d = true ->
  String.length (shownThreat d) = String.length sentinel.
Proof. apply test_length. Qed.

Lemma existsb_false {A} (f : A -> bool) l :
  (forall a, In a l -> f a = false) -> existsb f l = false.
Proof.
  induction l as [|a l IH]; simpl; intros H; auto.
  rewrite (H a (or_introl eq_refl)), IH; auto.
Qed.

(** *** The claims about the alert *)

(** Claim C2, as amended.  The devices hold texts without markup.  After
    a refresh onto a page with at most one popup, the alert is shown
    exactly when, for some device, the text that the paragraph of its
    threat field shows (white space collapsed), with leading and trailing
    white space trimmed, is the sentinel phrase as a whole and up to
    letter case: the decision reads the threat fields and nothing else.
    So a field whose shown text is not of the sentinel's length (one that
    holds the sentinel inside a longer text, say) causes no alert; and
    the summary, which always holds the sentinel words, causes none: with
    every field equal to "No Threat" there is no alert, and the scan's
    decision does not change when the summary shows any other figures. *)
Theorem alert_scoped_to_trimmed_threat_fields devices p :
  atMostOne p ->
  let q := fetchAndRender (Resolved devices) p in
  popups q = (if existsb fieldMatches devices then [alertPopup] else [])
  /\ ((forall d, In d devices ->
         String.length (shownThreat d) <> String.length sentinel) ->
      popups q = [])
  /\ includes (summary q) sentinel = true
  /\ ((forall d, In d devices -> threat d = "No Threat") -> popups q = [])
  /\ (forall online offline threats,
        existsThreatDetectedInCards
          (set_summary (summaryMarkup online offline threats) q)
        = existsThreatDetectedInCards q).
Proof.
  intros H q.
  assert (Hq : popups q =
               if existsb fieldMatches devices then [alertPopup] else [])
    by (apply popups_after_refresh; exact H).
  split; [exact Hq|]. split; [|split; [|split]].
  - intros Hlen. rewrite Hq, existsb_false; auto.
    intros d Hd. destruct (fieldMatches d) eqn:E; auto.
    apply fieldMatches_length in E. now apply Hlen in E.
  - subst q. rewrite refresh_is_scan_of_rendered.
    destruct (scan_frame (rendered devices p)) as [-> _].
    destruct (rendered_fields devices p) as [-> _].
    apply includes_summary.
  - intros Hno. rewrite Hq, existsb_false; auto.
    intros d Hd. unfold fieldMatches, shownThreat. now rewrite (Hno d Hd).
  - intros online offline threats. now apply exists_only_grid.
Qed.

Lemma alert_scoped_to_trimmed_threat_fields_witness :
  atMostOne blankPage
  /\ let q := fetchAndRender
                (Resolved [quietDevice;
                           with_threat
                             (plaintext "Possible Threat Detected nearby")
                             quietDevice]) blankPage in
     popups q = [] /\ includes (summary q) sentinel = true.
Proof.
  split; [unfold atMostOne; simpl; lia|].
  pose proof (alert_scoped_to_trimmed_threat_fields
                [quietDevice;
                 with_threat (plaintext "Possible Threat Detected nearby")
                             quietDevice]
                blankPage) as H.
  destruct H as (H1 & _ & H3 & _).
  - unfold atMostOne; simpl; lia.
  - split; [exact H1|exact H3].
Defined.

(** Claim C2 as stated fails.  The field " Threat Detected" holds the
    sentinel only inside a longer string and does not match as a whole,
    yet the refresh brings up the alert; so it is not true that fields
    without a whole-field match never cause the alert. *)
Lemma whole_field_only_counterexample :
  let d := with_threat (plaintext " Threat Detected") quietDevice in
  (includes (threat d) sentinel = true
   /\ (String.length sentinel < String.length (threat d))%nat
   /\ testWholeIgnoreCase sentinel (threat d) = false
   /\ popups (fetchAndRender (Resolved [d]) blankPage) = [alertPopup])
  /\ ~ (forall devices,
          (forall d', In d' devices ->
             testWholeIgnoreCase sentinel (threat d') = false) ->
          popups (fetchAndRender (Resolved devices) blankPage) = []).
Proof.
  cbv zeta. split.
  - vm_compute. repeat split; auto.
  - intros H.
    specialize (H [with_threat (plaintext " Threat Detected") quietDevice]).
    assert (Hf : forall d,
               In d [with_threat (plaintext " Threat Detected") quietDevice] ->
               testWholeIgnoreCase sentinel (threat d) = false).
    { intros d [<-|[]]. reflexivity. }
    specialize (H Hf). vm_compute in H. discriminate.
Qed.

(** *** One popup, on texts without markup *)

(** Along every run of the page that starts with at most one popup
    (refreshes of devices whose texts hold no markup, ending well or
    badly, scans from any trigger, the test helpers and socket events, in
    any order) every page observed has at most one popup; and
    [createPopup] on such a page leaves exactly the new popup, replacing
    the one that was there.  This is what claim C3 asks, on the texts the
    embedding covers. *)
Lemma at_most_one_on_plain_text events p :
  atMostOne p ->
  Forall atMostOne (observations events p)
  /\ (forall text old,
        popups p = [old] ->
        popups (createPopup text p) =
        [{| popup_sub :=
              orElseText text
                (plaintext "Potential malicious activity detected") |}]).
Proof.
  intros H. split.
  - revert p H. induction events as [|e events IH]; intros p H; simpl.
    + constructor; [exact H|constructor].
    + constructor; [exact H|]. apply IH. now apply handle_keeps_atMostOne.
  - intros text old _. now apply createPopup_atMostOne.
Qed.

Lemma at_most_one_on_plain_text_sample :
  Forall atMostOne
    (observations
       [Refresh (Resolved
                   [with_threat (plaintext "Threat Detected") quietDevice]);
        Scan; TriggerThreatPopupForTest (plaintext ""); Scan;
        Refresh (FetchRejected "TypeError: Failed to fetch");
        Refresh (Resolved [quietDevice]); RemoveThreatPopup]
       blankPage).
Proof.
  apply (at_most_one_on_plain_text _ blankPage).
  unfold atMostOne; simpl; lia.
Defined.

(** On a page with at most one popup, a refresh of devices whose texts
    hold no markup, followed by a second refresh with the same devices,
    leaves the page of the first: same summary, same cards, same popup,
    nothing logged; a further scan changes nothing either, and there is
    at most one popup.  This is what claim C7 asks, on the texts the
    embedding covers. *)
Lemma refresh_idempotent_on_plain_text devices p :
  atMostOne p ->
  let q := fetchAndRender (Resolved devices) p in
  fetchAndRender (Resolved devices) q = q
  /\ scanDomForThreat q = q
  /\ atMostOne q.
Proof.
  intros H q.
  assert (Hq1 : atMostOne q)
    by exact (handle_keeps_atMostOne (Refresh (Resolved devices)) p H).
  assert (Hpop : popups q =
                 if existsb fieldMatches devices then [alertPopup] else [])
    by (apply popups_after_refresh; exact H).
  assert (Hfr : summary q = summary (rendered devices p)
                /\ grid q = grid (rendered devices p)
                /\ console q = console (rendered devices p)
                /\ intervals q = intervals (rendered devices p)
                /\ socket q = socket (rendered devices p))
    by (apply scan_frame).
  destruct Hfr as (Hs & Hg & Hc & Hi & Hk).
  destruct (rendered_fields devices p) as (Rs & Rg & Rp & Rc & Ri & Rk).
  split; [|split; [|exact Hq1]].
  - destruct (scan_frame (rendered devices q)) as (Ss & Sg & Sc & Si & Sk).
    destruct (rendered_fields devices q) as (Qs & Qg & Qp & Qc & Qi & Qk).
    rewrite refresh_is_scan_of_rendered.
    apply page_ext; try congruence.
    rewrite <- refresh_is_scan_of_rendered.
    rewrite popups_after_refresh by exact Hq1. now rewrite Hpop.
  - destruct (scan_frame q) as (Ss & Sg & Sc & Si & Sk).
    apply page_ext; try congruence.
    rewrite popups_scan by exact Hq1.
    rewrite (exists_only_grid q (renderGrid devices p)) by (rewrite Hg, Rg; reflexivity).
    rewrite exists_after_render. now rewrite Hpop.
Qed.

Lemma refresh_idempotent_on_plain_text_sample :
  let devices := [quietDevice; lowerCaseDevice] in
  let q := fetchAndRender (Resolved devices) blankPage in
  fetchAndRender (Resolved devices) q = q
  /\ scanDomForThreat q = q
  /\ atMostOne q.
Proof.
  apply (refresh_idempotent_on_plain_text _ blankPage).
  unfold atMostOne; simpl; lia.
Defined.

(** *** Fetch faults *)

(** Claim C8.  When the fetch or the decoding of the response fails, the
    refresh leaves the summary, the device grid and the popups as they
    were and adds one error line to the console; it returns a page, on
    which later events run as on any other.  This holds for the script
    with the popup and for the earlier draft. *)
Theorem fetch_fault_retains_snapshot r p :
  failed r = true ->
  (let q := fetchAndRender r p in
   summary q = summary p /\ grid q = grid p /\ popups q = popups p
   /\ intervals q = intervals p /\ socket q = socket p
   /\ console q = (console p ++ [fetchFailureLine r])%list
   /\ existsThreatDetectedInCards q = existsThreatDetectedInCards p)
  /\ fetchAndRender_draft r p = fetchAndRender r p.
Proof.
  intros H. destruct r; try discriminate; simpl; auto 10.
Qed.

Lemma fetch_fault_retains_snapshot_witness :
  failed (JsonRejected "SyntaxError: Unexpected token <") = true
  /\ let q := fetchAndRender
                (JsonRejected "SyntaxError: Unexpected token <") lastGood in
     summary q = summary lastGood /\ grid q = grid lastGood
     /\ popups q = popups lastGood.
Proof.
  split; [reflexivity|].
  destruct (fetch_fault_retains_snapshot
              (JsonRejected "SyntaxError: Unexpected token <") lastGood
              eq_refl) as [(H1 & H2 & H3 & _) _].
  cbv zeta. auto.
Defined.

(** *** White space around the sentinel *)

Lemma padded_not_no_threat ws1 core ws2 :
  testWholeIgnoreCase sentinel core = true ->
  String.eqb (ws1 ++ core ++ ws2) "No Threat" = false.
Proof.
  intros H. apply test_length in H.
  destruct (String.eqb_spec (ws1 ++ core ++ ws2) "No Threat") as [E|E]; auto.
  apply (f_equal String.length) in E.
  rewrite !length_app, H in E. simpl in E. lia.
Qed.

(** A device (its texts without markup) whose threat field is the
    sentinel phrase up to letter case, with any white space before and
    after it (any of the characters that [trim] removes), brings up the
    alert, whatever the other devices: layout and [trim] take the white
    space away before the text is tested against the whole pattern.  This
    is what claim C9 asks, on the texts the embedding covers. *)
Lemma padded_sentinel_on_plain_text devices d ws1 core ws2 p :
  atMostOne p ->
  In d devices ->
  threat d = ws1 ++ core ++ ws2 ->
  allWhiteSpace ws1 = true ->
  allWhiteSpace ws2 = true ->
  testWholeIgnoreCase sentinel core = true ->
  shownThreat d = core
  /\ existsThreatDetectedInCards (rendered devices p) = true
  /\ popups (fetchAndRender (Resolved devices) p) = [alertPopup].
Proof.
  intros Hp Hin Ht H1 H2 Hm.
  assert (Htrim : shownThreat d = core).
  { unfold shownThreat, innerText. rewrite Ht.
    apply (shown_padded "T" "hreat Detected"); auto.
    - apply inkPattern_T.
    - apply phrase_sentinel.
    - apply endsInk_sentinel. }
  assert (Hex : existsb fieldMatches devices = true).
  { apply existsb_exists. exists d. split; [exact Hin|].
    unfold fieldMatches. now rewrite Htrim. }
  split; [exact Htrim|]. split.
  - unfold rendered. now rewrite exists_after_render.
  - rewrite popups_after_refresh by exact Hp. now rewrite Hex.
Qed.

(** U+00A0 and a line break before the phrase, spaces and U+3000 after
    it. *)
Lemma padded_sentinel_on_plain_text_sample :
  let ws1 := String (ascii_of_nat 194) (String (ascii_of_nat 160) newline) in
  let ws2 := "  " ++ String (ascii_of_nat 227) (String (ascii_of_nat 128)
                       (String (ascii_of_nat 128) "")) in
  let d := with_threat
             {| text_of := ws1 ++ "tHREAT detected" ++ ws2;
                text_plain := eq_refl |} quietDevice in
  popups (fetchAndRender (Resolved [quietDevice; d]) blankPage)
  = [alertPopup].
Proof.
  cbv zeta.
  apply (padded_sentinel_on_plain_text
           _ (with_threat
                {| text_of :=
                     String (ascii_of_nat 194)
                       (String (ascii_of_nat 160) newline)
                     ++ "tHREAT detected"
                     ++ "  " ++ String (ascii_of_nat 227)
                                  (String (ascii_of_nat 128)
                                     (String (ascii_of_nat 128) ""));
                   text_plain := eq_refl |} quietDevice)
           (String (ascii_of_nat 194) (String (ascii_of_nat 160) newline))
           "tHREAT detected"
           ("  " ++ String (ascii_of_nat 227)
                      (String (ascii_of_nat 128)
                         (String (ascii_of_nat 128) "")))
           blankPage).
  - unfold atMostOne; simpl; lia.
  - simpl. auto.
  - reflexivity.
  - reflexivity.
  - reflexivity.
  - reflexivity.
Defined.

(** *** Summary against alert *)

(** Claim C10.  The summary counts a device when its threat field is
    exactly "Threat Detected", the scan matches it whatever the letter
    case: for the single device with threat "threat detected" the alert is
    shown, the threat counter of [renderSummary] is 0 and the summary
    badge reads "0 Threat Detected". *)
Theorem summary_and_alert_disagree :
  let q := fetchAndRender (Resolved [lowerCaseDevice]) blankPage in
  threat lowerCaseDevice = "threat detected"
  /\ popups q = [alertPopup]
  /\ countThreats [lowerCaseDevice] = 0
  /\ summary q = summaryMarkup 1 0 0
  /\ includes (summary q) ">0 Threat Detected<" = true.
Proof.
  cbv zeta. split; [reflexivity|]. split; [reflexivity|].
  split; [reflexivity|]. split; [reflexivity|]. vm_compute. reflexivity.
Qed.

(** *** The push channel *)

Lemma scan_intervals p : intervals (scanDomForThreat p) = intervals p.
Proof. apply scan_frame. Qed.

Lemma handle_intervals e p : intervals (handle e p) = intervals p.
Proof.
  destruct e as [r| |msg| |ev]; cbn [handle].
  - destruct r; simpl; auto. now rewrite scan_intervals.
  - apply scan_intervals.
  - now destruct (createPopup_frame
                    (orElseText msg (plaintext "Simulated threat for testing"))
                    p)
      as (_ & _ & _ & -> & _).
  - now destruct (removePopup_frame p) as (_ & _ & _ & -> & _).
  - unfold socketOn. destruct (socket p); [destruct ev|]; reflexivity.
Qed.

Lemma run_intervals events : forall p,
  intervals (run events p) = intervals p.
Proof.
  induction events as [|e events IH]; intros p; simpl; auto.
  unfold run in IH. rewrite IH. apply handle_intervals.
Qed.

(** Claim C4, as amended.  When the socket set-up throws while the script
    loads, the script logs one warning with the error and sets the
    polling timer (fetchAndRender every 3000 ms), and touches nothing
    else of the page.  When [io] returns a socket no timer is set, and no
    later event sets one: a [connect_error] delivered afterwards adds one
    error line to the console and nothing else. *)
Theorem polling_fallback_only_when_init_throws :
  (forall e p,
     let q := socketInit (IoThrows e) p in
     intervals q = (intervals p ++ [pollingTimer])%list
     /\ console q = (console p ++ [initFailureLine e])%list
     /\ socket q = socket p
     /\ summary q = summary p /\ grid q = grid p /\ popups q = popups p)
  /\ (forall events p,
        intervals (run events (socketInit IoReturns p)) = intervals p)
  /\ (forall err p,
        let q := socketInit IoReturns p in
        socketOn (ConnectError err) q
        = console_add ErrorLevel "Socket connect_error:" err q).
Proof.
  split; [|split].
  - intros e p. simpl. auto 10.
  - intros events p. now rewrite run_intervals.
  - intros err p. reflexivity.
Qed.

(** Claim C4 as stated fails: the socket is created, the connection error
    arrives afterwards, and no polling timer exists; the page has no timer
    at all. *)
Lemma connect_error_sets_no_polling :
  let q := run [Socket (ConnectError "xhr poll error")]
               (socketInit IoReturns blankPage) in
  ~ In pollingTimer (intervals q) /\ intervals q = [].
Proof. cbv zeta. simpl. split; [tauto|reflexivity]. Qed.

End DashboardFacts.

(* ================================================================== *)
(** ** Facts about the edge sketch *)

Module EdgeFacts.
Import Js JsFacts Edge.

(** *** Wrapped arithmetic *)

Lemma ulong_range z : 0 <= ulong z < 2 ^ 32.
Proof. unfold ulong. apply Z.mod_pos_bound. lia. Qed.

(** The difference of two readings of [millis] is the time between them,
    modulo 2^32. *)
Lemma ulong_diff a b : ulong (ulong a - ulong b) = ulong (a - b).
Proof. unfold ulong. now rewrite <- Zminus_mod. Qed.

Lemma ulong_small z : 0 <= z < 2 ^ 32 -> ulong z = z.
Proof. unfold ulong. apply Z.mod_small. Qed.

Lemma ulong_below z : 0 <= z -> ulong z <= z.
Proof. unfold ulong. intros H. apply Z.mod_le; lia. Qed.

(** *** The bounded waits leave by their own tests *)

#[local] Arguments ulong : simpl never.
#[local] Arguments Z.geb : simpl never.
#[local] Arguments Z.gtb : simpl never.
#[local] Arguments Z.ltb : simpl never.
#[local] Arguments Z.leb : simpl never.
#[local] Arguments Z.mul : simpl never.
#[local] Arguments Z.of_nat : simpl never.

Lemma ntp_wait_step hw fuel start now s :
  ntp_wait hw (S fuel) start now s =
  if ulong (ulong (uptime s) - start) <? 2000 then
    let s' := elapse 200 s in
    let now' := time hw (uptime s') in
    if now' >? 1000 then (now', s') else ntp_wait hw fuel start now' s'
  else (now, s).
Proof.
  cbn [ntp_wait]. unfold bind, millis, delay, time_nullptr, ret. cbv zeta.
  destruct (ulong (ulong (uptime s) - start) <? 2000); [|reflexivity].
  destruct (time hw (uptime (elapse 200 s)) >? 1000); reflexivity.
Qed.

(** In the NTP wait, [k] turns before the 2000 ms are over, any two
    amounts of fuel of at least [k] give the same result. *)
Lemma ntp_wait_fuel hw u0 : forall k f1 f2 s now,
  (k <= 10)%nat -> (k <= f1)%nat -> (k <= f2)%nat ->
  uptime s = u0 + 2000 - 200 * Z.of_nat k ->
  ntp_wait hw f1 (ulong u0) now s = ntp_wait hw f2 (ulong u0) now s.
Proof.
  induction k as [|k IH]; intros f1 f2 s now Hk H1 H2 Hu.
  - assert (Hdone : forall f, ntp_wait hw f (ulong u0) now s = (now, s)).
    { intros [|f]; [reflexivity|].
      rewrite ntp_wait_step, ulong_diff, Hu.
      replace (u0 + 2000 - 200 * Z.of_nat 0 - u0) with 2000 by lia.
      reflexivity. }
    now rewrite !Hdone.
  - destruct f1 as [|f1]; [lia|]. destruct f2 as [|f2]; [lia|].
    rewrite !ntp_wait_step, ulong_diff, Hu.
    replace (u0 + 2000 - 200 * Z.of_nat (S k) - u0)
      with (2000 - 200 * Z.of_nat (S k)) by lia.
    rewrite ulong_small by lia.
    destruct (Z.ltb_spec (2000 - 200 * Z.of_nat (S k)) 2000); [|lia].
    cbv zeta.
    destruct (time hw (uptime (elapse 200 s)) >? 1000); [reflexivity|].
    apply IH; try lia. cbn [uptime elapse]. lia.
Qed.

Lemma getIsoTimestamp_fuel hw s now fuel :
  (10 <= fuel)%nat ->
  ntp_wait hw fuel (ulong (uptime s)) now s
  = ntp_wait hw 11 (ulong (uptime s)) now s.
Proof.
  intros H. apply (ntp_wait_fuel hw (uptime s) 10); lia.
Qed.

Lemma setupWiFi_wait_step hw fuel start s :
  setupWiFi_wait hw (S fuel) start s =
  if WiFi_connected hw (uptime s) then (tt, s)
  else
    let s' := exec (emit (Serial_print ".")) (elapse 150 s) in
    if ulong (ulong (uptime s') - start) >? 10000 then (tt, s')
    else setupWiFi_wait hw fuel start s'.
Proof.
  cbn [setupWiFi_wait].
  unfold bind, WiFi_status_connected, millis, delay, ret, exec. cbv zeta.
  destruct (WiFi_connected hw (uptime s)); [reflexivity|].
  cbn [emit snd uptime elapse].
  destruct (ulong (ulong (uptime s + 150) - start) >? 10000); reflexivity.
Qed.

(** In the wait of [setupWiFi], [k] turns before the 10000 ms are
    exceeded, any two amounts of fuel of at least [k] give the same
    result. *)
Lemma setupWiFi_wait_fuel hw u0 : forall k f1 f2 s,
  (k <= 67)%nat -> (k <= f1)%nat -> (k <= f2)%nat ->
  uptime s = u0 + 10050 - 150 * Z.of_nat k ->
  (1 <= k)%nat ->
  setupWiFi_wait hw f1 (ulong u0) s = setupWiFi_wait hw f2 (ulong u0) s.
Proof.
  induction k as [|k IH]; intros f1 f2 s Hk H1 H2 Hu Hpos; [lia|].
  destruct f1 as [|f1]; [lia|]. destruct f2 as [|f2]; [lia|].
  rewrite !setupWiFi_wait_step.
  destruct (WiFi_connected hw (uptime s)); [reflexivity|].
  cbv zeta. unfold exec. cbn [emit snd uptime elapse].
  rewrite ulong_diff, Hu.
  replace (u0 + 10050 - 150 * Z.of_nat (S k) + 150 - u0)
    with (10050 - 150 * Z.of_nat k) by lia.
  rewrite ulong_small by lia.
  destruct (Z.gtb_spec (10050 - 150 * Z.of_nat k) 10000); [reflexivity|].
  apply IH; try lia. cbn [uptime]. lia.
Qed.

Lemma setupWiFi_fuel hw s fuel :
  (67 <= fuel)%nat ->
  setupWiFi_wait hw fuel (ulong (uptime s)) s
  = setupWiFi_wait hw 68 (ulong (uptime s)) s.
Proof.
  intros H. apply (setupWiFi_wait_fuel hw (uptime s) 67); lia.
Qed.

(** *** Computations that start no connection attempt *)

(** The step put out nothing and changed none of the fields in
    question. *)
Ltac nothing_emitted :=
  exists []; simpl; rewrite app_nil_r; repeat split; auto; lia.

Lemma attempts_app a b : attempts (a ++ b) = (attempts a ++ attempts b)%list.
Proof.
  induction a as [|o a IH]; simpl; auto.
  destruct o; simpl; auto. now rewrite IH.
Qed.

Lemma quiet_ret {A} (a : A) : quiet (ret a).
Proof.
  intros s. nothing_emitted.
Qed.

Lemma quiet_bind {A B} (m : M A) (k : A -> M B) :
  quiet m -> (forall a, quiet (k a)) -> quiet (bind m k).
Proof.
  intros Hm Hk s. unfold bind.
  destruct (Hm s) as (e1 & O1 & A1 & L1 & I1 & U1).
  destruct (m s) as [a s1]. simpl in *.
  destruct (Hk a s1) as (e2 & O2 & A2 & L2 & I2 & U2).
  exists (e1 ++ e2)%list. rewrite O2, O1, app_assoc, attempts_app, A1, A2.
  repeat split; auto; try congruence. lia.
Qed.

Lemma quiet_if {A} (b : bool) (m1 m2 : M A) :
  quiet m1 -> quiet m2 -> quiet (if b then m1 else m2).
Proof. destruct b; auto. Qed.

Lemma quiet_emit o : attempts [o] = [] -> quiet (emit o).
Proof.
  intros H s. exists [o]. simpl. repeat split; auto. lia.
Qed.

Lemma quiet_delay ms : 0 <= ms -> quiet (delay ms).
Proof.
  intros H s. nothing_emitted.
Qed.

Lemma quiet_millis : quiet millis.
Proof. exact (fun s => quiet_ret (ulong (uptime s)) s). Qed.

Lemma quiet_now_ms : quiet now_ms.
Proof. exact (fun s => quiet_ret (uptime s) s). Qed.

Lemma quiet_read {A} (f : Sketch -> A) : quiet (read f).
Proof. exact (fun s => quiet_ret (f s) s). Qed.

Lemma quiet_status hw : quiet (WiFi_status_connected hw).
Proof. exact (fun s => quiet_ret (WiFi_connected hw (uptime s)) s). Qed.

Lemma quiet_time hw : quiet (time_nullptr hw).
Proof. exact (fun s => quiet_ret (time hw (uptime s)) s). Qed.

Lemma quiet_set_lastSend v : quiet (set_lastSend v).
Proof.
  intros s. nothing_emitted.
Qed.

Create HintDb quiet.
#[local] Hint Resolve quiet_ret quiet_millis quiet_now_ms quiet_read
  quiet_status quiet_time quiet_set_lastSend : quiet.
#[local] Hint Extern 1 (quiet (bind _ _)) =>
  apply quiet_bind; [|intros ?] : quiet.
#[local] Hint Extern 1 (quiet (if _ then _ else _)) =>
  apply quiet_if : quiet.
#[local] Hint Extern 1 (quiet (emit _)) =>
  apply quiet_emit; reflexivity : quiet.
#[local] Hint Extern 1 (quiet (delay _)) =>
  apply quiet_delay; lia : quiet.
#[local] Hint Extern 1 (quiet (match ?d with Later => _ | Earlier => _ end)) =>
  destruct d : quiet.

Lemma quiet_ntp_wait hw fuel : forall start now,
  quiet (ntp_wait hw fuel start now).
Proof.
  induction fuel as [|fuel IH]; intros start now; simpl; auto 20 with quiet.
Qed.

Lemma quiet_getIsoTimestamp hw draft : quiet (getIsoTimestamp hw draft).
Proof.
  pose proof (quiet_ntp_wait hw).
  unfold getIsoTimestamp, getIsoTimestamp_later, getIsoTimestamp_earlier.
  auto 20 with quiet.
Qed.

Lemma quiet_sendSensorData hw draft : quiet (sendSensorData hw draft).
Proof.
  pose proof (quiet_getIsoTimestamp hw draft).
  unfold sendSensorData. auto 30 with quiet.
Qed.

Lemma quiet_setupWiFi_wait hw fuel : forall start,
  quiet (setupWiFi_wait hw fuel start).
Proof.
  induction fuel as [|fuel IH]; intros start; simpl; auto 20 with quiet.
Qed.

(** *** Connection attempts that keep their distance *)

Lemma last_cons_indep {A} (l : list A) : forall a d,
  last (a :: l) d = last l a.
Proof.
  induction l as [|b l IH]; intros a d; auto.
  change (last (a :: b :: l) d) with (last (b :: l) d).
  now rewrite (IH b d), (IH b a).
Qed.

Lemma last_app_default {A} (l1 l2 : list A) : forall d,
  last (l1 ++ l2) d = last l2 (last l1 d).
Proof.
  induction l1 as [|a l1 IH]; intros d; auto.
  change ((a :: l1) ++ l2)%list with (a :: (l1 ++ l2))%list.
  now rewrite !last_cons_indep, IH.
Qed.

Lemma spaced_app d l1 : forall prev l2,
  spaced d prev l1 -> spaced d (last l1 prev) l2 ->
  spaced d prev (l1 ++ l2).
Proof.
  induction l1 as [|t l1 IH]; intros prev l2 H1 H2; simpl in *; auto.
  destruct H1 as [Ht H1]. split; auto.
  apply IH; auto. now rewrite <- (last_cons_indep l1 t prev).
Qed.

Lemma spaced_last d l : forall prev,
  0 <= d -> spaced d prev l -> prev <= last l prev.
Proof.
  induction l as [|t l IH]; intros prev Hd H; [simpl; lia|].
  destruct H as [Ht H]. rewrite last_cons_indep.
  specialize (IH t Hd H). lia.
Qed.

Lemma spaced_weaken d l : forall prev prev',
  prev' <= prev -> spaced d prev l -> spaced d prev' l.
Proof. destruct l; simpl; intros; auto. split; [lia|tauto]. Qed.

Lemma spaced_after d l : forall prev,
  0 <= d -> spaced d prev l -> Forall (fun t => prev + d <= t) l.
Proof.
  induction l as [|t l IH]; intros prev Hd H; constructor.
  - apply H.
  - destruct H as [Ht H]. specialize (IH t Hd H).
    eapply Forall_impl; [|exact IH]. simpl. intros; lia.
Qed.

Lemma spaced_separated d l : forall prev,
  0 <= d -> spaced d prev l -> separated d l.
Proof.
  induction l as [|t l IH]; intros prev Hd H; simpl; auto.
  destruct H as [Ht H]. split; [now apply spaced_after|eauto].
Qed.

Lemma paced_compose f g : paced f -> paced g -> paced (fun s => g (f s)).
Proof.
  intros Hf Hg s T0 Hd HT HL.
  destruct (Hf s T0 Hd HT HL) as (e1 & O1 & I1 & S1 & U1 & L1).
  pose proof (spaced_last _ _ _ Hd S1) as HT1.
  destruct (Hg (f s) (last (attempts e1) T0)) as (e2 & O2 & I2 & S2 & U2 & L2);
    try lia; auto.
  exists (e1 ++ e2)%list.
  rewrite O2, O1, app_assoc, attempts_app, last_app_default.
  rewrite I1 in *. repeat split; auto; try congruence.
  now apply spaced_app.
Qed.

Lemma quiet_paced {A} (m : M A) : quiet m -> paced (exec m).
Proof.
  intros Hm s T0 Hd HT HL. unfold exec.
  destruct (Hm s) as (e & O & At & L & I & U).
  exists e. rewrite At. simpl. repeat split; auto; try congruence. lia.
Qed.

Lemma exec_bind {A B} (m : M A) (k : A -> M B) s :
  exec (bind m k) s = exec (k (eval m s)) (exec m s).
Proof. unfold exec, eval, bind. now destruct (m s). Qed.

Lemma paced_bind {A B} (m : M A) (k : A -> M B) :
  paced (exec m) -> (forall a, paced (exec (k a))) -> paced (exec (bind m k)).
Proof.
  intros Hm Hk s T0 Hd HT HL. rewrite exec_bind.
  destruct (Hm s T0 Hd HT HL) as (e1 & O1 & I1 & S1 & U1 & L1).
  pose proof (spaced_last _ _ _ Hd S1) as HT1.
  destruct (Hk (eval m s) (exec m s) (last (attempts e1) T0))
    as (e2 & O2 & I2 & S2 & U2 & L2); try lia; auto.
  exists (e1 ++ e2)%list.
  rewrite O2, O1, app_assoc, attempts_app, last_app_default.
  rewrite I1 in *. repeat split; auto; try congruence.
  now apply spaced_app.
Qed.

(** The guard of [reconnectIfNeeded]: with less than the interval elapsed
    on the wrapped clock since the recorded attempt, nothing happens. *)
Lemma reconnect_guard hw s :
  ulong (ulong (uptime s) - lastWifiAttempt s) < WIFI_RECONNECT_INTERVAL_MS s ->
  exec (reconnectIfNeeded hw) s = s.
Proof.
  intros H. unfold reconnectIfNeeded, exec, bind, WiFi_status_connected.
  simpl. destruct (WiFi_connected hw (uptime s)); simpl; auto.
  apply Z.ltb_lt in H. rewrite H. reflexivity.
Qed.

Lemma reconnect_paced hw : paced (exec (reconnectIfNeeded hw)).
Proof.
  intros s T0 Hd HT HL.
  unfold reconnectIfNeeded, exec, bind, WiFi_status_connected.
  simpl. destruct (WiFi_connected hw (uptime s)); simpl.
  - nothing_emitted.
  - destruct (Z.ltb_spec (ulong (ulong (uptime s) - lastWifiAttempt s))
                         (WIFI_RECONNECT_INTERVAL_MS s)) as [Hlt|Hge]; simpl.
    + nothing_emitted.
    + exists [Serial_println "WiFi dropped. Reconnecting..."; WiFi_disconnect;
              WiFi_begin (uptime s)].
      rewrite <- !app_assoc. simpl. repeat split; auto; try lia.
      rewrite HL, ulong_diff in Hge.
      pose proof (ulong_below (uptime s - T0)). lia.
Qed.

Lemma loop_paced hw draft : paced (exec (loop hw draft)).
Proof.
  pose proof (quiet_sendSensorData hw draft) as Hsend.
  unfold loop.
  apply paced_bind; [destruct draft; apply quiet_paced; auto with quiet|].
  intros _. apply paced_bind; [apply reconnect_paced|].
  intros _. apply quiet_paced. auto 30 with quiet.
Qed.

Lemma pass_paced ms : paced (elapse (Z.of_N ms)).
Proof.
  intros s T0 Hd HT HL. nothing_emitted.
Qed.

Lemma act_paced hw draft a : paced (act hw draft a).
Proof. destruct a; [apply loop_paced|apply pass_paced]. Qed.

Lemma run_paced hw draft schedule : paced (run hw draft schedule).
Proof.
  induction schedule as [|a schedule IH].
  - intros s T0 Hd HT HL. nothing_emitted.
  - exact (paced_compose _ _ (act_paced hw draft a) IH).
Qed.

(** *** setup *)

Lemma quiet_setup_rest hw draft : quiet (setup_rest hw draft).
Proof.
  pose proof (quiet_setupWiFi_wait hw 68).
  unfold setup_rest, setupOTA, setupTime. auto 30 with quiet.
Qed.

Lemma setup_unfold hw draft s :
  exec (setup hw draft) s =
  exec (setup_rest hw draft)
       (exec (emit (Serial_println (Js.newline ++ "Starting ESP Weather Node"))
              ;; emit WiFi_mode_STA ;; emit (WiFi_begin (uptime s))) s).
Proof. reflexivity. Qed.

(** [setup] makes one connection attempt, when it starts, and records it
    nowhere. *)
Lemma setup_attempt hw draft s :
  exists emitted,
    out (exec (setup hw draft) s) = (out s ++ emitted)%list
    /\ attempts emitted = [uptime s]
    /\ lastWifiAttempt (exec (setup hw draft) s) = lastWifiAttempt s
    /\ WIFI_RECONNECT_INTERVAL_MS (exec (setup hw draft) s)
       = WIFI_RECONNECT_INTERVAL_MS s
    /\ uptime s <= uptime (exec (setup hw draft) s).
Proof.
  rewrite setup_unfold.
  set (s1 := exec (emit _ ;; emit WiFi_mode_STA ;; emit (WiFi_begin (uptime s))) s).
  destruct (quiet_setup_rest hw draft s1) as (e & O & At & L & I & U).
  fold (exec (setup_rest hw draft) s1) in O, L, I, U.
  exists ([Serial_println (Js.newline ++ "Starting ESP Weather Node");
           WiFi_mode_STA; WiFi_begin (uptime s)] ++ e)%list.
  rewrite O, attempts_app, At, L, I. subst s1. simpl.
  rewrite <- !app_assoc. simpl. repeat split; auto.
Qed.

(** *** Backoff *)

(** Among themselves the attempts of [reconnectIfNeeded] keep the
    backoff.  In every execution (power-on at any time, [setup], then
    calls of [loop] with any time passing between them, on any board, in
    either draft) the connection attempts made by [reconnectIfNeeded] are
    at least 5000 ms apart from one another and at least 5000 ms after
    power-on; [setup] has made one attempt before, at its start; and
    [reconnectIfNeeded] does nothing when the wrapped clock shows less
    than WIFI_RECONNECT_INTERVAL_MS since the recorded attempt. *)
Theorem reconnect_attempts_respect_backoff hw draft t0 schedule :
  (exists emitted,
     out (firmware hw draft t0 schedule)
     = (out (after_setup hw draft t0) ++ emitted)%list
     /\ separated 5000 (attempts emitted)
     /\ Forall (fun t => 5000 <= t) (attempts emitted))
  /\ attempts (out (after_setup hw draft t0)) = [Z.of_N t0]
  /\ (forall s,
        ulong (ulong (uptime s) - lastWifiAttempt s)
        < WIFI_RECONNECT_INTERVAL_MS s ->
        exec (reconnectIfNeeded hw) s = s).
Proof.
  destruct (setup_attempt hw draft (power_on t0))
    as (e0 & O0 & A0 & L0 & I0 & U0).
  fold (after_setup hw draft t0) in O0, L0, I0, U0. simpl in *.
  split; [|split].
  - destruct (run_paced hw draft schedule (after_setup hw draft t0) 0)
      as (e & O & I & S & U & L); rewrite ?I0, ?L0; try lia; auto.
    rewrite I0 in S. exists e. split; [exact O|]. split.
    + apply (spaced_separated 5000 _ 0); [lia|exact S].
    + apply (spaced_after 5000 _ 0); [lia|exact S].
  - now rewrite O0, A0.
  - intros s. apply reconnect_guard.
Qed.

(** Two attempts of [reconnectIfNeeded], at 5000 ms and at 10010 ms. *)
Lemma reconnect_attempts_respect_backoff_witness :
  attempts (out (after_setup flakyBoard Later 50)) = [50]
  /\ exists emitted,
       out (firmware flakyBoard Later 50
              (repeat Loop 301 ++ [Pass 5000; Loop]))
       = (out (after_setup flakyBoard Later 50) ++ emitted)%list
       /\ attempts emitted = [5000; 10010]
       /\ separated 5000 (attempts emitted).
Proof.
  destruct (reconnect_attempts_respect_backoff
              flakyBoard Later 50 (repeat Loop 301 ++ [Pass 5000; Loop]))
    as ((e & O & S & _) & A & _).
  split; [exact A|]. exists e. split; [exact O|]. split; [|exact S].
  apply (f_equal attempts) in O. rewrite attempts_app, A in O.
  assert (E : attempts (out (firmware flakyBoard Later 50
                               (repeat Loop 301 ++ [Pass 5000; Loop])))
              = [50; 5000; 10010]) by (vm_compute; reflexivity).
  rewrite E in O. simpl in O. now injection O as <-.
Defined.

(** Claim C5 fails in the code.  [setupWiFi] calls [WiFi.begin] and
    leaves [lastWifiAttempt] at 0, whereas [reconnectIfNeeded] records
    its attempt before it calls [WiFi.begin].  Take a board on which
    [setup] starts 50 ms after power-on and whose link comes up at 2 s
    and is lost at 3 s, then 301 calls of [loop], in either draft.  The
    attempt of [setup] is at 50 ms and [lastWifiAttempt] is still 0 after
    [setup]; so the guard of [reconnectIfNeeded] measures from 0 and lets
    the next attempt through at 5000 ms, 4950 ms after the one before
    and less than WIFI_RECONNECT_INTERVAL_MS = 5000; that attempt is
    recorded. *)
Theorem setup_attempt_not_spaced draft :
  let s0 := after_setup flakyBoard draft 50 in
  let s := firmware flakyBoard draft 50 (repeat Loop 301) in
  attempts (out s0) = [50]
  /\ lastWifiAttempt s0 = 0
  /\ WIFI_RECONNECT_INTERVAL_MS s0 = 5000
  /\ attempts (out s) = [50; 5000]
  /\ lastWifiAttempt s = 5000
  /\ ~ separated 5000 (attempts (out s)).
Proof.
  cbv zeta.
  assert (E : attempts (out (firmware flakyBoard draft 50 (repeat Loop 301)))
              = [50; 5000]) by (destruct draft; vm_compute; reflexivity).
  split; [destruct draft; vm_compute; reflexivity|].
  split; [destruct draft; vm_compute; reflexivity|].
  split; [destruct draft; vm_compute; reflexivity|].
  split; [exact E|].
  split; [destruct draft; vm_compute; reflexivity|].
  rewrite E. simpl. intros [H _].
  inversion H as [|x l Hx Hl]. lia.
Qed.

(** *** Invalid readings *)

Lemma posts_app a b : posts (a ++ b) = (posts a ++ posts b)%list.
Proof.
  induction a as [|o a IH]; simpl; auto.
  destruct o; simpl; auto. now rewrite IH.
Qed.

Lemma send_invalid hw draft s :
  (isnan hw (readHumidity hw (uptime s))
   || isnan hw (readTemperature hw (uptime s)))%bool = true ->
  sendSensorData hw draft s = emit (Serial_println "DHT read failed.") s.
Proof.
  intros H. unfold sendSensorData, bind, now_ms. now rewrite H.
Qed.

(** Claim C6.  When the humidity or the temperature read is NaN,
    [sendSensorData] prints "DHT read failed." and does nothing else: no
    request is made, and the uptime, [lastSend], [lastWifiAttempt] and
    both intervals are as before.  A call of [loop] in which the send is
    due, the link is up and the reading is invalid so ends like any other
    send tick: [lastSend] holds the time of the tick, 10 ms have passed,
    nothing was posted. *)
Theorem invalid_reading_skips_submission hw draft s :
  (isnan hw (readHumidity hw (uptime s))
   || isnan hw (readTemperature hw (uptime s)))%bool = true ->
  exec (sendSensorData hw draft) s
  = exec (emit (Serial_println "DHT read failed.")) s
  /\ posts (out (exec (sendSensorData hw draft) s)) = posts (out s)
  /\ (WiFi_connected hw (uptime s) = true ->
      SEND_INTERVAL_MS s <= ulong (ulong (uptime s) - lastSend s) ->
      let s' := exec (loop hw draft) s in
      out s' = (out s
                ++ match draft with
                   | Later => []
                   | Earlier => [OTA_handle]
                   end
                ++ [Serial_println "DHT read failed."])%list
      /\ posts (out s') = posts (out s)
      /\ lastSend s' = ulong (uptime s)
      /\ uptime s' = uptime s + 10
      /\ lastWifiAttempt s' = lastWifiAttempt s
      /\ WIFI_RECONNECT_INTERVAL_MS s' = WIFI_RECONNECT_INTERVAL_MS s
      /\ SEND_INTERVAL_MS s' = SEND_INTERVAL_MS s).
Proof.
  intros H. split; [|split].
  - unfold exec. now rewrite send_invalid.
  - unfold exec. rewrite send_invalid by exact H. simpl.
    rewrite posts_app. simpl. now rewrite app_nil_r.
  - intros Hlink Hdue s'. subst s'.
    apply Z.geb_le in Hdue.
    unfold loop, reconnectIfNeeded, exec, bind, millis, read,
      WiFi_status_connected, set_lastSend.
    destruct draft; simpl; rewrite Hlink; simpl; rewrite Hdue; simpl;
      rewrite Hlink, send_invalid by exact H; simpl;
      rewrite ?posts_app; simpl; rewrite ?app_nil_r, <- ?app_assoc;
      repeat split; reflexivity.
Qed.

Lemma invalid_reading_skips_submission_witness :
  let s := elapse 5000 (after_setup faultyBoard Later 20) in
  posts (out (exec (loop faultyBoard Later) s)) = posts (out s)
  /\ lastSend (exec (loop faultyBoard Later) s) = ulong (uptime s).
Proof.
  cbv zeta.
  destruct (invalid_reading_skips_submission faultyBoard Later
              (elapse 5000 (after_setup faultyBoard Later 20)) eq_refl)
    as (_ & _ & H).
  destruct (H eq_refl) as (_ & H2 & H3 & _).
  - vm_compute. discriminate.
  - split; [exact H2|exact H3].
Defined.

(** *** Timestamps *)

Lemma elapse_0 s : elapse 0 s = s.
Proof. destruct s. unfold elapse. simpl. f_equal. lia. Qed.

Lemma elapse_elapse a b s : elapse a (elapse b s) = elapse (b + a) s.
Proof. unfold elapse. simpl. f_equal. lia. Qed.

(** With the wall clock unset throughout the window that starts at uptime
    [u0], the wait loop runs until 2000 ms have passed and gives up; [k]
    counts the turns still to come, and any [fuel] of at least [k] will
    do. *)
Lemma ntp_wait_unset hw u0 :
  (forall t, u0 <= t <= u0 + 2000 -> time hw t <= 1000) ->
  forall k fuel s now,
    (k <= 10)%nat -> (k <= fuel)%nat ->
    uptime s = u0 + 2000 - 200 * Z.of_nat k ->
    now <= 1000 ->
    exists now',
      ntp_wait hw fuel (ulong u0) now s = (now', elapse (200 * Z.of_nat k) s)
      /\ now' <= 1000.
Proof.
  intros Hunset. induction k as [|k IH]; intros fuel s now Hk Hf Hu Hnow.
  - exists now. split; [|exact Hnow]. rewrite elapse_0.
    destruct fuel as [|fuel]; [reflexivity|].
    cbn [ntp_wait]. unfold bind, millis. rewrite ulong_diff, Hu.
    replace (u0 + 2000 - 200 * Z.of_nat 0 - u0) with 2000 by lia.
    reflexivity.
  - destruct fuel as [|fuel]; [lia|].
    cbn [ntp_wait]. unfold bind at 1. unfold millis at 1.
    rewrite ulong_diff, Hu.
    replace (u0 + 2000 - 200 * Z.of_nat (S k) - u0)
      with (2000 - 200 * Z.of_nat (S k)) by lia.
    rewrite ulong_small by lia.
    destruct (Z.ltb_spec (2000 - 200 * Z.of_nat (S k)) 2000); [|lia].
    unfold bind, delay, time_nullptr.
    assert (Hu' : uptime (elapse 200 s) = u0 + 2000 - 200 * Z.of_nat k)
      by (cbn [uptime elapse]; lia).
    assert (Ht : time hw (uptime (elapse 200 s)) <= 1000)
      by (apply Hunset; lia).
    destruct (Z.gtb_spec (time hw (uptime (elapse 200 s))) 1000); [lia|].
    destruct (IH fuel (elapse 200 s) (time hw (uptime (elapse 200 s))))
      as (now' & E & Hn); try lia; auto.
    exists now'. split; [|exact Hn]. rewrite E, elapse_elapse.
    do 2 f_equal. lia.
Qed.

Lemma fmt_02lu_two n : 0 <= n < 100 -> twoDigits (fmt_02lu n) = true.
Proof.
  intros H.
  assert (T : forallb (fun k => twoDigits (fmt_02lu (Z.of_nat k)))
                      (seq 0 100) = true) by (vm_compute; reflexivity).
  rewrite forallb_forall in T. specialize (T (Z.to_nat n)).
  rewrite Z2Nat.id in T by lia. apply T. apply in_seq. lia.
Qed.

Lemma isoShape_fallback hh mm ss :
  twoDigits hh = true -> twoDigits mm = true -> twoDigits ss = true ->
  let text := "1970-01-01T" ++ hh ++ ":" ++ mm ++ ":" ++ ss in
  snprintf 32 text = text /\ isoShape text = true /\ allDigits text = false.
Proof.
  intros Hh Hm Hs.
  destruct hh as [|h1 [|h2 [|]]]; try discriminate.
  destruct mm as [|m1 [|m2 [|]]]; try discriminate.
  destruct ss as [|s1 [|s2 [|]]]; try discriminate.
  cbn [twoDigits] in *.
  apply andb_true_iff in Hh, Hm, Hs.
  destruct Hh as [Hh1 Hh2], Hm as [Hm1 Hm2], Hs as [Hs1 Hs2].
  cbv zeta. split; [reflexivity|].
  cbn [append isoShape list_ascii_of_string allDigits].
  rewrite Hh1, Hh2, Hm1, Hm2, Hs1, Hs2. split; reflexivity.
Qed.

(** The later draft does what claim C1 says: with the wall clock at or
    below 1000 during the 2000 ms from the call on, [getIsoTimestamp]
    returns, 2000 ms later, the text 1970-01-01THH:MM:SS built from the
    seconds of uptime; the text has the shape YYYY-MM-DDTHH:MM:SS and is
    no decimal number. *)
Lemma later_draft_fallback hw s :
  (forall t, uptime s <= t <= uptime s + 2000 -> time hw t <= 1000) ->
  let text := fallbackText (ulong (uptime s + 2000)) in
  getIsoTimestamp hw Later s = (text, elapse 2000 s)
  /\ isoShape text = true
  /\ forall n, text <> decimal n.
Proof.
  intros Hunset text.
  assert (Hshape : snprintf 32 text = text /\ isoShape text = true
                   /\ allDigits text = false).
  { pose proof (ulong_range (uptime s + 2000)) as Hr.
    set (ms := ulong (uptime s + 2000)) in *.
    apply isoShape_fallback; apply fmt_02lu_two;
      apply Z.mod_pos_bound || (split; [apply Z.mod_pos_bound; lia|]);
      try lia.
    - pose proof (Z.mod_pos_bound (ms / 1000 / 3600) 24). lia.
    - pose proof (Z.mod_pos_bound (ms / 1000 / 60) 60). lia.
    - pose proof (Z.mod_pos_bound (ms / 1000) 60). lia. }
  destruct Hshape as (Hfit & Hiso & Hnd).
  split; [|split; [exact Hiso|]].
  - assert (H0 : time hw (uptime s) <= 1000) by (apply Hunset; lia).
    destruct (ntp_wait_unset hw (uptime s) Hunset 10 11 s (time hw (uptime s)))
      as (now' & E & Hn); try lia.
    change (200 * Z.of_nat 10) with 2000 in E.
    cbn [getIsoTimestamp]. unfold getIsoTimestamp_later.
    unfold bind at 1. unfold time_nullptr at 1.
    destruct (Z.leb_spec (time hw (uptime s)) 1000); [|lia].
    unfold bind at 1. unfold bind at 1. unfold millis at 1.
    rewrite E.
    destruct (Z.leb_spec now' 1000); [|lia].
    unfold bind, millis, ret. cbn [uptime elapse].
    fold (fallbackText (ulong (uptime s + 2000))). fold text.
    now rewrite Hfit.
  - intros n E. rewrite E, decimal_digits in Hnd. discriminate.
Qed.

Lemma later_draft_fallback_witness :
  getIsoTimestamp unsyncedBoard Later (power_on 6014)
  = ("1970-01-01T00:00:08", elapse 2000 (power_on 6014)).
Proof.
  apply (later_draft_fallback unsyncedBoard (power_on 6014)).
  intros t _. simpl. lia.
Defined.

(** The earlier draft, with the wall clock unset, returns the decimal
    digits of [millis()]. *)
Lemma earlier_draft_fallback hw s :
  time hw (uptime s) <= 1000 ->
  getIsoTimestamp hw Earlier s = (decimal (ulong (uptime s)), s)
  /\ allDigits (decimal (ulong (uptime s))) = true.
Proof.
  intros H. split; [|apply decimal_digits].
  cbn [getIsoTimestamp]. unfold getIsoTimestamp_earlier, bind, time_nullptr.
  destruct (Z.leb_spec (time hw (uptime s)) 1000); [reflexivity|lia].
Qed.

(** Claim C1 fails on the earlier draft of the sketch.  With the wall
    clock unset, at 6014 ms of uptime, its [getIsoTimestamp] returns
    "6014", the tick counter, which has not the shape
    YYYY-MM-DDTHH:MM:SS, and that is the timestamp of the telemetry
    posted; the later draft returns 1970-01-01T00:00:08 there. *)
Theorem earlier_draft_returns_raw_ticks :
  let s := power_on 6014 in
  eval (getIsoTimestamp unsyncedBoard Earlier) s = "6014"
  /\ isoShape (eval (getIsoTimestamp unsyncedBoard Earlier) s) = false
  /\ posts (out (exec (sendSensorData unsyncedBoard Earlier) s))
     = ["{" ++ dq ++ "device_id" ++ dq ++ ": 1,"
        ++ dq ++ "timestamp" ++ dq ++ ": " ++ dq ++ "6014" ++ dq ++ ","
        ++ dq ++ "temperature" ++ dq ++ ": 21.50,"
        ++ dq ++ "humidity" ++ dq ++ ": 21.50,"
        ++ dq ++ "motion" ++ dq ++ ": 0}"]
  /\ eval (getIsoTimestamp unsyncedBoard Later) s = "1970-01-01T00:00:08".
Proof. vm_compute. repeat split; reflexivity. Qed.

End EdgeFacts.

(* ================================================================== *)
(** ** Facts about the controls *)

Module ControlsFacts.
Import Js JsFacts Controls.

(** *** Numbers in URLs *)

Lemma append_assoc (a b c : string) : ((a ++ b) ++ c = a ++ (b ++ c))%string.
Proof. induction a as [|x a IH]; simpl; [reflexivity|now rewrite IH]. Qed.

Lemma append_length (a b : string) :
  String.length (a ++ b) = (String.length a + String.length b)%nat.
Proof. induction a; simpl; auto. Qed.

Lemma append_inv_head (a x y : string) : (a ++ x = a ++ y)%string -> x = y.
Proof.
  induction a as [|c a IH]; simpl; intros H; [exact H|].
  injection H as H. auto.
Qed.

Lemma append_inv_tail (z : string) : forall x y,
  (x ++ z = y ++ z)%string -> x = y.
Proof.
  induction x as [|c x IH]; intros [|d y] H; simpl in H.
  - reflexivity.
  - apply (f_equal String.length) in H. simpl in H.
    rewrite append_length in H. lia.
  - apply (f_equal String.length) in H. simpl in H.
    rewrite append_length in H. lia.
  - injection H as -> H. f_equal. auto.
Qed.

Lemma parseFrom_app a : forall v b,
  parseFrom v (a ++ b) = parseFrom (parseFrom v a) b.
Proof. induction a as [|c a IH]; intros v b; simpl; auto. Qed.

Lemma digit_value d :
  0 <= d < 10 -> Z.of_nat (nat_of_ascii (digit d)) - 48 = d.
Proof.
  intros H. unfold digit. rewrite nat_ascii_embedding by lia. lia.
Qed.

Lemma decimal_aux_parse fuel : forall n acc,
  0 <= n < 10 ^ Z.of_nat fuel ->
  exists ds, decimal_aux fuel n acc = (ds ++ acc)%string
             /\ parseFrom 0 ds = n.
Proof.
  induction fuel as [|fuel IH]; intros n acc H.
  - exists ""%string. simpl in *. split; [reflexivity|lia].
  - cbn [decimal_aux].
    assert (Hd : 0 <= n mod 10 < 10) by (apply Z.mod_pos_bound; lia).
    destruct (Z.ltb_spec n 10) as [Hlt|Hge].
    + exists (String (digit (n mod 10)) ""). split; [reflexivity|].
      cbn [parseFrom]. rewrite digit_value by exact Hd.
      rewrite Z.mod_small by lia. lia.
    + destruct (IH (n / 10) (String (digit (n mod 10)) acc)) as (ds & E & P).
      { rewrite Nat2Z.inj_succ, Z.pow_succ_r in H by lia.
        split; [apply Z.div_pos; lia|].
        apply Z.div_lt_upper_bound; lia. }
      exists (ds ++ String (digit (n mod 10)) "")%string.
      rewrite E, append_assoc. split; [reflexivity|].
      rewrite parseFrom_app, P. cbn [parseFrom].
      rewrite digit_value by exact Hd.
      pose proof (Z.div_mod n 10). lia.
Qed.

Lemma decimal_fuel n : 0 <= n -> n < 10 ^ Z.of_nat (S (Z.to_nat (Z.log2 n))).
Proof.
  intros H. rewrite Nat2Z.inj_succ, Z2Nat.id by apply Z.log2_nonneg.
  destruct (Z.eq_dec n 0) as [->|Hn]; [reflexivity|].
  pose proof (Z.log2_spec n ltac:(lia)) as [_ Hs].
  pose proof (Z.log2_nonneg n).
  assert (2 ^ Z.succ (Z.log2 n) <= 10 ^ Z.succ (Z.log2 n))
    by (apply Z.pow_le_mono_l; lia).
  lia.
Qed.

Lemma parse_decimal n : 0 <= n -> parseDecimal (decimal n) = n.
Proof.
  intros H. unfold parseDecimal, decimal.
  destruct (decimal_aux_parse _ n "" (conj H (decimal_fuel n H)))
    as (ds & E & P).
  rewrite E. now rewrite parseFrom_app, P.
Qed.

Lemma decimal_inj a b : 0 <= a -> 0 <= b -> decimal a = decimal b -> a = b.
Proof.
  intros Ha Hb E. rewrite <- (parse_decimal a Ha), <- (parse_decimal b Hb).
  now rewrite E.
Qed.

Lemma decimal_not_minus n x : decimal n <> ("-" ++ x)%string.
Proof.
  intros E. pose proof (decimal_digits n) as D. rewrite E in D.
  discriminate.
Qed.

Lemma integer_inj a b : integer a = integer b -> a = b.
Proof.
  unfold integer.
  destruct (Z.ltb_spec a 0), (Z.ltb_spec b 0); intros E.
  - apply append_inv_head in E. apply decimal_inj in E; lia.
  - symmetry in E. now apply decimal_not_minus in E.
  - now apply decimal_not_minus in E.
  - apply decimal_inj; assumption.
Qed.

(** X1.  The buttons of a card address the device of the card: for two
    devices whose ids are safe integers and differ, the toggle buttons of
    their cards send requests to different URLs, and so do their delete
    entries; the request of [togglePower] is a POST to that URL and the
    request of a confirmed [deleteDevice] a DELETE. *)
Theorem card_buttons_address_their_device d1 d2 resolved u :
  isSafeInteger (Dashboard.id d1) = true ->
  isSafeInteger (Dashboard.id d2) = true ->
  Dashboard.id d1 <> Dashboard.id d2 ->
  let t1 := Dashboard.card_toggle (Dashboard.renderCard d1) in
  let t2 := Dashboard.card_toggle (Dashboard.renderCard d2) in
  let x1 := Dashboard.card_delete (Dashboard.renderCard d1) in
  let x2 := Dashboard.card_delete (Dashboard.renderCard d2) in
  toggleUrl t1 <> toggleUrl t2
  /\ deleteUrl x1 <> deleteUrl x2
  /\ requests (togglePower t1 resolved u)
     = (requests u
        ++ [{| method := "POST"; url := toggleUrl (Dashboard.id d1);
               body := "" |}])%list
  /\ requests (deleteDevice x1 true resolved u)
     = (requests u
        ++ [{| method := "DELETE"; url := deleteUrl (Dashboard.id d1);
               body := "" |}])%list.
Proof.
  intros _ _ Hne. cbv zeta. cbn [Dashboard.renderCard Dashboard.card_toggle
                                 Dashboard.card_delete].
  split; [|split; [|split]].
  - intros E. unfold toggleUrl in E.
    do 2 apply append_inv_head in E. apply append_inv_tail in E.
    now apply integer_inj in E.
  - intros E. unfold deleteUrl in E.
    do 2 apply append_inv_head in E. now apply integer_inj in E.
  - unfold togglePower. destruct resolved; reflexivity.
  - unfold deleteDevice. destruct resolved; reflexivity.
Qed.

Lemma card_buttons_address_their_device_witness :
  toggleUrl 1 <> toggleUrl 12 /\ deleteUrl 1 <> deleteUrl 12.
Proof.
  destruct (card_buttons_address_their_device
              Dashboard.quietDevice Dashboard.porchCamera
              true (loaded "Emergency Check"))
    as (H1 & H2 & _).
  - reflexivity.
  - reflexivity.
  - simpl. lia.
  - split; [exact H1|exact H2].
Defined.

(** *** The emergency button *)

Lemma perform_keeps_button label a u :
  buttonOk label u -> buttonOk label (perform a u).
Proof.
  intros H. destruct a as [id r|id c r|r| |k a]; cbn [perform].
  - unfold togglePower. destruct r; exact H.
  - unfold deleteDevice. destruct c; [destruct r|]; exact H.
  - unfold addDevice. destruct r; exact H.
  - unfold emergencyClick.
    destruct H as [(W & D & T)|(W & D & T)]; rewrite D; [|right; auto].
    right. simpl. rewrite W, T. auto.
  - unfold emergencyDone.
    destruct H as [(W & D & T)|(W & D & T)]; rewrite W.
    + destruct k; simpl; left; auto.
    + destruct k as [|k]; simpl.
      * left. destruct a; simpl; auto.
      * destruct k; simpl; right; auto.
Qed.

(** X2.  From the loaded page, whatever the user clicks and however the
    requests end, in any order: at most one emergency check waits for its
    answer; while one waits the emergency button is disabled and reads
    "Analyzing..."; when none waits the button is enabled and reads its
    original label, after a failed check as after a successful one. *)
Theorem emergency_button_never_stuck label actions :
  let u := session actions (loaded label) in
  buttonOk label u
  /\ (List.length (waiting u) <= 1)%nat
  /\ (waiting u = [] -> btn_disabled u = false /\ btn_text u = label).
Proof.
  cbv zeta.
  assert (H : buttonOk label (session actions (loaded label))).
  { unfold session. generalize (loaded label) (or_introl (conj eq_refl
      (conj eq_refl eq_refl)) : buttonOk label (loaded label)).
    induction actions as [|a actions IH]; intros u Hu; simpl; auto.
    apply IH. now apply perform_keeps_button. }
  split; [exact H|].
  destruct H as [(W & D & T)|(W & D & T)]; rewrite W; simpl.
  - auto.
  - split; [lia|discriminate].
Qed.

Lemma emergency_button_never_stuck_witness :
  let u := session [EmergencyClick; EmergencyClick; Toggle 3 true;
                EmergencyAnswer 0 Failed] (loaded "Emergency Check") in
  btn_disabled u = false /\ btn_text u = "Emergency Check".
Proof.
  cbv zeta.
  destruct (emergency_button_never_stuck "Emergency Check"
              [EmergencyClick; EmergencyClick; Toggle 3 true;
               EmergencyAnswer 0 Failed]) as (_ & _ & H).
  apply H. reflexivity.
Defined.

(** *** Requests, alerts and refreshes *)

Lemma remove_nth_length {A} (l : list A) : forall k x,
  nth_error l k = Some x ->
  List.length l = S (List.length (remove_nth k l)).
Proof.
  induction l as [|a l IH]; intros [|k] x H; simpl in *; try discriminate.
  - reflexivity.
  - f_equal. eauto.
Qed.

Lemma filter_last {A} (f : A -> bool) l x :
  List.length (filter f (l ++ [x]))
  = (List.length (filter f l) + if f x then 1 else 0)%nat.
Proof.
  rewrite filter_app, length_app. simpl. now destruct (f x).
Qed.

Lemma isEmergency_toggle id :
  isEmergency {| method := "POST"; url := toggleUrl id; body := "" |} = false.
Proof. reflexivity. Qed.

Lemma isEmergency_delete id :
  isEmergency {| method := "DELETE"; url := deleteUrl id; body := "" |}
  = false.
Proof. reflexivity. Qed.

Lemma perform_accounted a u : accounted u -> accounted (perform a u).
Proof.
  unfold accounted. intros [H1 H2].
  destruct a as [id r|id c r|r| |k a]; cbn [perform].
  - unfold togglePower. destruct r; simpl;
      rewrite filter_last, isEmergency_toggle, length_app; simpl; lia.
  - unfold deleteDevice. destruct c; [destruct r|]; simpl;
      rewrite ?filter_last, ?isEmergency_delete, ?length_app; simpl; lia.
  - unfold addDevice. destruct r; simpl;
      rewrite filter_last, length_app; simpl; lia.
  - unfold emergencyClick. destruct (btn_disabled u); [auto|]. simpl.
    rewrite filter_last, !length_app. simpl. lia.
  - unfold emergencyDone.
    destruct (nth_error (waiting u) k) as [x|] eqn:E; [|auto].
    apply remove_nth_length in E.
    destruct a; simpl; rewrite ?length_app; simpl; lia.
Qed.

Lemma session_deletes actions : forall u,
  List.length (filter isDelete (requests (session actions u)))
  = (List.length (filter isDelete (requests u))
     + List.length (filter confirmedDelete actions))%nat.
Proof.
  induction actions as [|a actions IH]; intros u; simpl; [lia|].
  unfold session in IH. rewrite IH. clear IH.
  destruct a as [id r|id c r|r| |k a]; cbn [perform confirmedDelete].
  - unfold togglePower. destruct r; simpl; rewrite filter_last; simpl; lia.
  - unfold deleteDevice. destruct c; [destruct r|]; simpl;
      rewrite ?filter_last; simpl; lia.
  - unfold addDevice. destruct r; simpl; rewrite filter_last; simpl; lia.
  - unfold emergencyClick. destruct (btn_disabled u); simpl;
      rewrite ?filter_last; simpl; lia.
  - unfold emergencyDone.
    destruct (nth_error (waiting u) k); [destruct a|]; simpl; lia.
Qed.

Lemma perform_refreshes a u :
  refreshes (perform a u)
  = (refreshes u + if resolves a u then 1 else 0)%nat.
Proof.
  destruct a as [id r|id c r|r| |k a]; cbn [perform resolves].
  - unfold togglePower. destruct r; simpl; lia.
  - unfold deleteDevice. destruct c; [destruct r|]; simpl; lia.
  - unfold addDevice. destruct r; simpl; lia.
  - unfold emergencyClick. destruct (btn_disabled u); simpl; lia.
  - unfold emergencyDone.
    destruct a; destruct (nth_error (waiting u) k); simpl; lia.
Qed.

(** X3.  From the loaded page, along any sequence of actions: the
    refreshes started and the checks still waiting never outnumber the
    requests sent; every emergency request has raised exactly one alert
    or still waits; the DELETE requests sent are exactly as many as the
    deletions the user confirmed, a declined one sending nothing; and an
    action, in any state, starts one refresh when it ends with the answer
    to a request of its own and none otherwise (a rejected fetch, a
    declined confirmation, a failed check, a click). *)
Theorem refresh_follows_request label actions :
  let u := session actions (loaded label) in
  (refreshes u + List.length (waiting u) <= List.length (requests u))%nat
  /\ (List.length (alerts u) + List.length (waiting u))%nat
     = List.length (filter isEmergency (requests u))
  /\ List.length (filter isDelete (requests u))
     = List.length (filter confirmedDelete actions)
  /\ (forall a v,
        refreshes (perform a v)
        = (refreshes v + if resolves a v then 1 else 0)%nat).
Proof.
  cbv zeta.
  assert (H : accounted (session actions (loaded label))).
  { unfold session. generalize (loaded label)
      (conj (Nat.le_refl 0) eq_refl : accounted (loaded label)).
    induction actions as [|a actions IH]; intros u Hu; simpl; auto.
    apply IH. now apply perform_accounted. }
  destruct H as [H1 H2]. split; [exact H1|]. split; [exact H2|].
  split; [now rewrite session_deletes|]. exact perform_refreshes.
Qed.

End ControlsFacts.

(* ================================================================== *)
(** ** More facts about the dashboard *)

Module DashboardMore.
Import Js JsFacts Dashboard DashboardFacts.

Lemma run_keeps_atMostOne events : forall p,
  atMostOne p -> atMostOne (run events p).
Proof.
  induction events as [|e events IH]; intros p H; simpl; auto.
  apply IH. now apply handle_keeps_atMostOne.
Qed.

(** X4.  [renderSummary] counts every device once as online or offline:
    the two figures add up to the number of devices, and the threat
    figure lies between 0 and that number. *)
Theorem summary_counts_partition devices :
  countOnline devices + countOffline devices
  = Z.of_nat (List.length devices)
  /\ 0 <= countThreats devices <= Z.of_nat (List.length devices).
Proof.
  unfold countOnline, countOffline, countThreats. split.
  - rewrite <- Nat2Z.inj_add. f_equal.
    induction devices as [|d devices IH]; simpl; [reflexivity|].
    destruct (Boolean (power d)); simpl; lia.
  - split; [lia|]. apply Nat2Z.inj_le.
    induction devices as [|d devices IH]; simpl; [lia|].
    destruct (String.eqb (threat d) "Threat Detected"); simpl; lia.
Qed.

(** X5.  A refresh replaces what is shown, it merges nothing.  For
    devices whose texts hold no markup: on a page with at most one popup,
    the page after a successful refresh is the same whatever an earlier
    successful refresh had rendered, so of two fetches the one that
    completes last decides the page; and for the empty collection the
    grid is empty and no alert is shown. *)
Theorem last_refresh_wins earlier devices p :
  atMostOne p ->
  fetchAndRender (Resolved devices) (fetchAndRender (Resolved earlier) p)
  = fetchAndRender (Resolved devices) p
  /\ grid (fetchAndRender (Resolved []) p) = []
  /\ popups (fetchAndRender (Resolved []) p) = [].
Proof.
  intros H.
  assert (Hq : atMostOne (fetchAndRender (Resolved earlier) p))
    by exact (handle_keeps_atMostOne (Refresh (Resolved earlier)) p H).
  split; [|split].
  - set (q := fetchAndRender (Resolved earlier) p) in *.
    destruct (scan_frame (rendered devices q)) as (A1 & A2 & A3 & A4 & A5).
    destruct (scan_frame (rendered devices p)) as (B1 & B2 & B3 & B4 & B5).
    destruct (rendered_fields devices q) as (C1 & C2 & C3 & C4 & C5 & C6).
    destruct (rendered_fields devices p) as (D1 & D2 & D3 & D4 & D5 & D6).
    destruct (scan_frame (rendered earlier p)) as (E1 & E2 & E3 & E4 & E5).
    destruct (rendered_fields earlier p) as (F1 & F2 & F3 & F4 & F5 & F6).
    rewrite !refresh_is_scan_of_rendered in *.
    apply page_ext; try congruence.
    + rewrite <- !refresh_is_scan_of_rendered.
      now rewrite !popups_after_refresh.
    + subst q. rewrite refresh_is_scan_of_rendered in *. congruence.
    + subst q. rewrite refresh_is_scan_of_rendered in *. congruence.
    + subst q. rewrite refresh_is_scan_of_rendered in *. congruence.
  - rewrite refresh_is_scan_of_rendered.
    destruct (scan_frame (rendered [] p)) as (_ & -> & _). reflexivity.
  - now rewrite popups_after_refresh.
Qed.

Lemma last_refresh_wins_witness :
  fetchAndRender (Resolved [quietDevice])
    (fetchAndRender (Resolved [lowerCaseDevice; quietDevice]) blankPage)
  = fetchAndRender (Resolved [quietDevice]) blankPage.
Proof.
  apply (last_refresh_wins [lowerCaseDevice; quietDevice] [quietDevice]
                           blankPage).
  unfold atMostOne. simpl. lia.
Defined.

(** X6.  The labels of a card agree with one another and with the
    summary: a card shows "Online", "ON" and "Turn Off" together, or
    "Offline", "OFF" and "Turn On" together, and the number of cards
    showing "Online" is the online figure of the summary. *)
Theorem card_power_labels_agree devices :
  Forall (fun c =>
            (card_status c = "Online" /\ card_statusClass c = "bg-success"
             /\ card_power c = "ON" /\ card_button c = "Turn Off")
            \/ (card_status c = "Offline"
                /\ card_statusClass c = "bg-secondary"
                /\ card_power c = "OFF" /\ card_button c = "Turn On"))
         (map renderCard devices)
  /\ Z.of_nat (List.length
                 (filter (fun c => String.eqb (card_status c) "Online")
                         (map renderCard devices)))
     = countOnline devices.
Proof.
  split.
  - apply Forall_forall. intros c Hc. apply in_map_iff in Hc.
    destruct Hc as (d & <- & _). unfold renderCard. simpl.
    destruct (Boolean (power d)); auto.
  - unfold countOnline. f_equal.
    induction devices as [|d devices IH]; simpl; [reflexivity|].
    destruct (Boolean (power d)); simpl; now rewrite IH.
Qed.

(** X7.  The scan is level-triggered.  On a page with at most one popup
    whose cards hold texts without markup, the popup put up by the test
    helper shows the given message (a text without markup), or "Simulated
    threat for testing" for an empty one; the next scan takes it away
    when no threat paragraph of the grid shows the sentinel and puts the
    standard alert in its place when one does. *)
Theorem scan_displaces_test_popup msg p :
  atMostOne p ->
  popups (handle (TriggerThreatPopupForTest msg) p)
  = [{| popup_sub := if String.eqb (text_of msg) ""
                     then plaintext "Simulated threat for testing"
                     else msg |}]
  /\ popups (handle Scan (handle (TriggerThreatPopupForTest msg) p))
     = (if existsThreatDetectedInCards p then [alertPopup] else []).
Proof.
  intros H. cbn [handle].
  assert (E : popups (createPopup
                        (orElseText msg
                           (plaintext "Simulated threat for testing")) p)
              = [{| popup_sub := if String.eqb (text_of msg) ""
                                 then plaintext "Simulated threat for testing"
                                 else msg |}]).
  { rewrite createPopup_atMostOne by exact H. unfold orElseText.
    destruct (String.eqb_spec (text_of msg) "") as [E|E]; [reflexivity|].
    destruct (String.eqb_spec (text_of msg) ""); [congruence|reflexivity]. }
  split; [exact E|].
  rewrite popups_scan by (unfold atMostOne; rewrite E; simpl; lia).
  rewrite (exists_only_grid _ p); [reflexivity|].
  apply createPopup_frame.
Qed.

Lemma scan_displaces_test_popup_witness :
  popups (handle Scan
            (handle (TriggerThreatPopupForTest (plaintext "drill")) lastGood))
  = [alertPopup]
  /\ popups (handle Scan
               (handle (TriggerThreatPopupForTest (plaintext "drill"))
                       blankPage)) = [].
Proof.
  split.
  - apply (scan_displaces_test_popup (plaintext "drill") lastGood).
    unfold atMostOne. simpl. lia.
  - apply (scan_displaces_test_popup (plaintext "drill") blankPage).
    unfold atMostOne. simpl. lia.
Defined.

Lemma socketOn_frame ev p :
  summary (socketOn ev p) = summary p /\ grid (socketOn ev p) = grid p
  /\ popups (socketOn ev p) = popups p
  /\ intervals (socketOn ev p) = intervals p
  /\ socket (socketOn ev p) = socket p.
Proof.
  unfold socketOn. destruct p as [s g pp c i k]. simpl.
  destruct k; [destruct ev|]; simpl; repeat split.
Qed.

Lemma socketOn_console ev p :
  List.length (console (socketOn ev p))
  = (List.length (console p) + if socket p then 1 else 0)%nat
  /\ (socket p = false -> socketOn ev p = p).
Proof.
  unfold socketOn. destruct p as [s g pp c i k]. simpl.
  destruct k; [destruct ev|]; simpl; rewrite ?List.length_app; simpl;
    split; try lia; try discriminate; reflexivity.
Qed.

(** X8.  What the socket delivers is never rendered.  Any sequence of
    socket events (connect, connect_error, device_update with any
    payload) leaves the summary, the grid and the popups as they were; it
    adds one console line per event when the handlers are registered, and
    does nothing at all when the socket set-up had thrown. *)
Theorem socket_events_render_nothing evs p :
  let q := run (map Socket evs) p in
  summary q = summary p /\ grid q = grid p /\ popups q = popups p
  /\ List.length (console q)
     = (List.length (console p)
        + if socket p then List.length evs else 0)%nat
  /\ (socket p = false -> q = p).
Proof.
  cbv zeta. revert p. induction evs as [|ev evs IH]; intros p.
  - simpl. repeat split; auto. destruct (socket p); lia.
  - cbn [map run fold_left handle].
    specialize (IH (socketOn ev p)). unfold run in IH.
    destruct IH as (I1 & I2 & I3 & I4 & I5).
    destruct (socketOn_frame ev p) as (F1 & F2 & F3 & F4 & F5).
    destruct (socketOn_console ev p) as (G1 & G2).
    rewrite I1, I2, I3, I4, F1, F2, F3, F5, G1.
    split; [reflexivity|]. split; [reflexivity|]. split; [reflexivity|].
    split.
    + cbn [List.length]. destruct (socket p); lia.
    + intros Hs. rewrite I5 by congruence. now apply G2.
Qed.

Lemma socket_events_render_nothing_witness :
  run (map Socket [Connect "abc"; DeviceUpdate "{id: 1}"])
      (socketInit (IoThrows "io is not defined") blankPage)
  = socketInit (IoThrows "io is not defined") blankPage.
Proof.
  apply (socket_events_render_nothing
           [Connect "abc"; DeviceUpdate "{id: 1}"]
           (socketInit (IoThrows "io is not defined") blankPage)).
  reflexivity.
Defined.

(** X9.  The earlier draft of the script renders as the later one does
    and never touches the popups: for every outcome of the fetch (the
    devices holding texts without markup) the two agree on summary, grid,
    console and timers, and the earlier draft leaves the popups as they
    were, so from a page without popup its refreshes never show an alert,
    whatever the devices. *)
Theorem draft_renders_alike_without_alert r p :
  summary (fetchAndRender_draft r p) = summary (fetchAndRender r p)
  /\ grid (fetchAndRender_draft r p) = grid (fetchAndRender r p)
  /\ console (fetchAndRender_draft r p) = console (fetchAndRender r p)
  /\ intervals (fetchAndRender_draft r p) = intervals (fetchAndRender r p)
  /\ popups (fetchAndRender_draft r p) = popups p
  /\ (forall outcomes,
        popups (fold_left (fun q o => fetchAndRender_draft o q) outcomes p)
        = popups p).
Proof.
  assert (K : forall o q, popups (fetchAndRender_draft o q) = popups q)
    by (intros [e|e|e|devices] q; reflexivity).
  repeat split.
  - destruct r; try reflexivity. simpl.
    now destruct (scan_frame (renderGrid devices (renderSummary devices p)))
      as (-> & _).
  - destruct r; try reflexivity. simpl.
    now destruct (scan_frame (renderGrid devices (renderSummary devices p)))
      as (_ & -> & _).
  - destruct r; try reflexivity. simpl.
    now destruct (scan_frame (renderGrid devices (renderSummary devices p)))
      as (_ & _ & -> & _).
  - destruct r; try reflexivity. simpl.
    now destruct (scan_frame (renderGrid devices (renderSummary devices p)))
      as (_ & _ & _ & -> & _).
  - apply K.
  - intros outcomes. revert p.
    induction outcomes as [|o outcomes IH]; intros p; simpl; auto.
    now rewrite IH, K.
Qed.

(** X10.  Whether the alert is shown depends on the devices last
    rendered and on nothing before.  For devices whose texts hold no
    markup: after any run of the page from a page with at most one popup
    (earlier refreshes, failed fetches, scans, test popups, socket
    events), a successful refresh shows the alert exactly when the text
    that the paragraph of some threat field of the new collection shows
    (white space collapsed), trimmed, is the sentinel up to letter case;
    a stale alert is taken away. *)
Theorem alert_follows_current_devices events devices p :
  atMostOne p ->
  popups (fetchAndRender (Resolved devices) (run events p))
  = (if existsb fieldMatches devices then [alertPopup] else []).
Proof.
  intros H. apply popups_after_refresh. now apply run_keeps_atMostOne.
Qed.

Lemma alert_follows_current_devices_witness :
  popups (fetchAndRender (Resolved [quietDevice])
            (run [Refresh (Resolved [lowerCaseDevice]);
                  TriggerThreatPopupForTest (plaintext "drill");
                  Refresh (JsonRejected "SyntaxError")] blankPage))
  = [].
Proof.
  apply (alert_follows_current_devices
           [Refresh (Resolved [lowerCaseDevice]);
            TriggerThreatPopupForTest (plaintext "drill");
            Refresh (JsonRejected "SyntaxError")] [quietDevice] blankPage).
  unfold atMostOne. simpl. lia.
Defined.

End DashboardMore.

(* ================================================================== *)
(** ** More facts about the edge sketch *)

Module EdgeMore.
Import Js JsFacts Edge EdgeFacts Pace.

#[local] Arguments ulong : simpl never.
#[local] Arguments Z.geb : simpl never.
#[local] Arguments Z.gtb : simpl never.
#[local] Arguments Z.ltb : simpl never.
#[local] Arguments Z.leb : simpl never.
#[local] Arguments Z.mul : simpl never.
#[local] Arguments Z.of_nat : simpl never.

(** *** Timestamps *)

(** In the NTP wait, [k] turns before the 2000 ms are over, at most
    [200 * k] ms pass, and nothing else changes. *)
Lemma ntp_wait_bound hw u0 : forall k fuel s now,
  (k <= 10)%nat ->
  uptime s = u0 + 2000 - 200 * Z.of_nat k ->
  exists d now',
    0 <= d <= 200 * Z.of_nat k
    /\ ntp_wait hw fuel (ulong u0) now s = (now', elapse d s).
Proof.
  induction k as [|k IH]; intros fuel s now Hk Hu.
  - exists 0, now. split; [lia|]. rewrite elapse_0.
    destruct fuel as [|fuel]; [reflexivity|].
    rewrite ntp_wait_step, ulong_diff, Hu.
    replace (u0 + 2000 - 200 * Z.of_nat 0 - u0) with 2000 by lia.
    reflexivity.
  - destruct fuel as [|fuel].
    { exists 0, now. split; [lia|]. now rewrite elapse_0. }
    rewrite ntp_wait_step, ulong_diff, Hu.
    replace (u0 + 2000 - 200 * Z.of_nat (S k) - u0)
      with (2000 - 200 * Z.of_nat (S k)) by lia.
    rewrite ulong_small by lia.
    destruct (Z.ltb_spec (2000 - 200 * Z.of_nat (S k)) 2000); [|lia].
    cbv zeta.
    destruct (time hw (uptime (elapse 200 s)) >? 1000).
    + exists 200, (time hw (uptime (elapse 200 s))). split; [lia|reflexivity].
    + destruct (IH fuel (elapse 200 s) (time hw (uptime (elapse 200 s))))
        as (d & now' & Hd & E); try lia.
      { cbn [uptime elapse]. lia. }
      exists (200 + d), now'. split; [lia|]. now rewrite E, elapse_elapse.
Qed.

Lemma later_unfold hw s :
  getIsoTimestamp hw Later s =
  let (now, s') :=
    if time hw (uptime s) <=? 1000
    then ntp_wait hw 11 (ulong (uptime s)) (time hw (uptime s)) s
    else (time hw (uptime s), s) in
  if now <=? 1000
  then (snprintf 32 (fallbackText (ulong (uptime s'))), s')
  else (strftime_iso hw now, s').
Proof.
  cbn [getIsoTimestamp]. unfold getIsoTimestamp_later.
  unfold bind at 1. unfold time_nullptr at 1. unfold bind at 1.
  destruct (time hw (uptime s) <=? 1000).
  - unfold bind at 1. unfold millis at 1.
    destruct (ntp_wait hw 11 (ulong (uptime s)) (time hw (uptime s)) s)
      as [now s'].
    destruct (now <=? 1000); reflexivity.
  - unfold ret at 1.
    destruct (time hw (uptime s) <=? 1000); reflexivity.
Qed.

Lemma earlier_unfold hw s :
  getIsoTimestamp hw Earlier s =
  if time hw (uptime s) <=? 1000 then (decimal (ulong (uptime s)), s)
  else (strftime_iso hw (time hw (uptime s)), s).
Proof.
  cbn [getIsoTimestamp]. unfold getIsoTimestamp_earlier, bind, time_nullptr.
  destruct (time hw (uptime s) <=? 1000); reflexivity.
Qed.

(** X11.  With the wall clock set when [getIsoTimestamp] is called (a
    time above 1000), both drafts return the formatted wall-clock time at
    once: no wait, no output, the state unchanged.  The drafts differ
    only while the clock is unset. *)
Theorem drafts_agree_when_clock_set hw s :
  1000 < time hw (uptime s) ->
  getIsoTimestamp hw Later s = (strftime_iso hw (time hw (uptime s)), s)
  /\ getIsoTimestamp hw Earlier s = getIsoTimestamp hw Later s.
Proof.
  intros H. rewrite later_unfold, earlier_unfold.
  destruct (Z.leb_spec (time hw (uptime s)) 1000); [lia|].
  destruct (Z.leb_spec (time hw (uptime s)) 1000); [lia|]. auto.
Qed.

Lemma drafts_agree_when_clock_set_witness :
  let hw := bench (fun _ => true) (fun _ => 1714557600) (fun _ => Some 2150) in
  getIsoTimestamp hw Earlier (power_on 6014)
  = getIsoTimestamp hw Later (power_on 6014).
Proof.
  cbv zeta.
  apply (drafts_agree_when_clock_set
           (bench (fun _ => true) (fun _ => 1714557600) (fun _ => Some 2150))
           (power_on 6014)).
  simpl. lia.
Defined.

(** With the clock unset at the polls before the [k]-th and set at the
    [k]-th, the wait ends at the [k]-th poll; [m] counts the polls still
    to come. *)
Lemma ntp_wait_sync hw u0 (k : nat) :
  (k <= 10)%nat ->
  (forall j, 0 <= j < Z.of_nat k -> time hw (u0 + 200 * j) <= 1000) ->
  1000 < time hw (u0 + 200 * Z.of_nat k) ->
  forall m fuel s now,
    (1 <= m <= k)%nat -> (m <= fuel)%nat ->
    uptime s = u0 + 200 * (Z.of_nat k - Z.of_nat m) ->
    ntp_wait hw fuel (ulong u0) now s
    = (time hw (u0 + 200 * Z.of_nat k), elapse (200 * Z.of_nat m) s).
Proof.
  intros Hk Hunset Hset.
  induction m as [|m IH]; intros fuel s now Hm Hf Hu; [lia|].
  destruct fuel as [|fuel]; [lia|].
  rewrite ntp_wait_step, ulong_diff, Hu.
  replace (u0 + 200 * (Z.of_nat k - Z.of_nat (S m)) - u0)
    with (200 * (Z.of_nat k - Z.of_nat (S m))) by lia.
  rewrite ulong_small by lia.
  destruct (Z.ltb_spec (200 * (Z.of_nat k - Z.of_nat (S m))) 2000); [|lia].
  cbv zeta. cbn [uptime elapse]. rewrite Hu.
  replace (u0 + 200 * (Z.of_nat k - Z.of_nat (S m)) + 200)
    with (u0 + 200 * (Z.of_nat k - Z.of_nat m)) by lia.
  destruct m as [|m].
  - replace (Z.of_nat k - Z.of_nat 0) with (Z.of_nat k) by lia.
    destruct (Z.gtb_spec (time hw (u0 + 200 * Z.of_nat k)) 1000); [|lia].
    reflexivity.
  - assert (Hj : time hw (u0 + 200 * (Z.of_nat k - Z.of_nat (S m))) <= 1000)
      by (apply Hunset; lia).
    destruct (Z.gtb_spec (time hw (u0 + 200 * (Z.of_nat k - Z.of_nat (S m))))
                         1000); [lia|].
    rewrite (IH fuel (elapse 200 s)); try lia.
    + rewrite elapse_elapse. do 2 f_equal. lia.
    + cbn [uptime elapse]. lia.
Qed.

(** X12.  In the later draft, when the wall clock is unset at the call
    and at the polls before the [k]-th and is set at the [k]-th poll
    (1 <= k <= 10, polls 200 ms apart), [getIsoTimestamp] returns the
    formatted wall-clock time read at that poll, [200 * k] ms after the
    call: it waits no longer than it takes the clock to be set. *)
Theorem later_draft_returns_once_synced hw s (k : nat) :
  (1 <= k <= 10)%nat ->
  (forall j, 0 <= j < Z.of_nat k -> time hw (uptime s + 200 * j) <= 1000) ->
  1000 < time hw (uptime s + 200 * Z.of_nat k) ->
  getIsoTimestamp hw Later s
  = (strftime_iso hw (time hw (uptime s + 200 * Z.of_nat k)),
     elapse (200 * Z.of_nat k) s).
Proof.
  intros Hk Hunset Hset. rewrite later_unfold.
  assert (H0 : time hw (uptime s) <= 1000).
  { replace (uptime s) with (uptime s + 200 * 0) by lia. apply Hunset. lia. }
  destruct (Z.leb_spec (time hw (uptime s)) 1000); [|lia].
  rewrite (ntp_wait_sync hw (uptime s) k) with (m := k); try lia; auto.
  destruct (Z.leb_spec (time hw (uptime s + 200 * Z.of_nat k)) 1000); [lia|].
  reflexivity.
Qed.

Lemma later_draft_returns_once_synced_witness :
  let hw := bench (fun _ => true)
                  (fun t => if t <? 6500 then 0 else 1714557600)
                  (fun _ => Some 2150) in
  getIsoTimestamp hw Later (power_on 6014)
  = ("2024-05-01T10:00:00", elapse 600 (power_on 6014)).
Proof.
  cbv zeta.
  apply (later_draft_returns_once_synced
           (bench (fun _ => true)
                  (fun t => if t <? 6500 then 0 else 1714557600)
                  (fun _ => Some 2150))
           (power_on 6014) 3).
  - lia.
  - intros j Hj. cbn [time bench uptime power_on].
    change (Z.of_nat 3) with 3 in Hj. change (Z.of_N 6014) with 6014.
    destruct (Z.ltb_spec (6014 + 200 * j) 6500); lia.
  - vm_compute. reflexivity.
Defined.

Lemma getIsoTimestamp_elapse hw draft s :
  exists d,
    0 <= d <= 2000
    /\ exec (getIsoTimestamp hw draft) s = elapse d s
    /\ (draft = Earlier -> d = 0).
Proof.
  unfold exec. destruct draft.
  - rewrite later_unfold.
    destruct (time hw (uptime s) <=? 1000).
    + destruct (ntp_wait_bound hw (uptime s) 10 11 s (time hw (uptime s)))
        as (d & now' & Hd & E); try lia.
      exists d. rewrite E.
      split; [lia|]. split; [|discriminate].
      destruct (now' <=? 1000); reflexivity.
    + exists 0. rewrite elapse_0. split; [lia|]. split; [|discriminate].
      destruct (time hw (uptime s) <=? 1000); reflexivity.
  - exists 0. rewrite earlier_unfold, elapse_0.
    split; [lia|]. split; [|reflexivity].
    destruct (time hw (uptime s) <=? 1000); reflexivity.
Qed.

(** X13.  [getIsoTimestamp] only lets time pass: on every board and in
    either draft the state after the call is the state before it with at
    most 2000 ms more of uptime (none in the earlier draft); nothing is
    put out and no global changes. *)
Theorem getIsoTimestamp_waits_at_most_2s hw draft s :
  exists d,
    0 <= d <= 2000
    /\ exec (getIsoTimestamp hw draft) s = elapse d s
    /\ (draft = Earlier -> d = 0).
Proof.
  destruct draft.
  - destruct (ntp_wait_bound hw (uptime s) 10 11 s (time hw (uptime s)))
      as (d & now' & Hd & E); try lia.
    unfold exec. rewrite later_unfold.
    destruct (Z.leb_spec (time hw (uptime s)) 1000).
    + exists d. rewrite E. split; [lia|]. split; [|discriminate].
      destruct (now' <=? 1000); reflexivity.
    + exists 0. rewrite elapse_0. split; [lia|]. split; [|discriminate].
      destruct (Z.leb_spec (time hw (uptime s)) 1000); [lia|reflexivity].
  - exists 0. unfold exec. rewrite earlier_unfold, elapse_0.
    split; [lia|]. split; [|reflexivity].
    destruct (time hw (uptime s) <=? 1000); reflexivity.
Qed.

Lemma getIsoTimestamp_waits_at_most_2s_witness :
  exists d,
    0 <= d <= 2000
    /\ exec (getIsoTimestamp unsyncedBoard Later) (power_on 6014)
       = elapse d (power_on 6014).
Proof.
  destruct (getIsoTimestamp_waits_at_most_2s unsyncedBoard Later
              (power_on 6014)) as (d & Hd & E & _).
  exists d. split; [exact Hd|exact E].
Defined.

Lemma fallback_shape ms :
  0 <= ms ->
  snprintf 32 (fallbackText ms) = fallbackText ms
  /\ isoShape (fallbackText ms) = true.
Proof.
  intros H. unfold fallbackText. cbv zeta.
  destruct (isoShape_fallback
              (fmt_02lu ((ms / 1000 / 3600) mod 24))
              (fmt_02lu ((ms / 1000 / 60) mod 60))
              (fmt_02lu ((ms / 1000) mod 60))) as (A & B & _);
    try (apply fmt_02lu_two).
  - pose proof (Z.mod_pos_bound (ms / 1000 / 3600) 24). lia.
  - pose proof (Z.mod_pos_bound (ms / 1000 / 60) 60). lia.
  - pose proof (Z.mod_pos_bound (ms / 1000) 60). lia.
  - split; [exact A|exact B].
Qed.

(** X14.  On a board whose [strftime] gives the layout
    YYYY-MM-DDTHH:MM:SS for the times above 1000, the later draft of
    [getIsoTimestamp] returns a string of that layout in every state:
    whether the clock is set, gets set during the wait, or stays unset. *)
Theorem later_draft_always_iso_shaped hw s :
  (forall t, 1000 < t -> isoShape (strftime_iso hw t) = true) ->
  isoShape (eval (getIsoTimestamp hw Later) s) = true.
Proof.
  intros Hlib. unfold eval. rewrite later_unfold.
  destruct (if time hw (uptime s) <=? 1000
            then ntp_wait hw 11 (ulong (uptime s)) (time hw (uptime s)) s
            else (time hw (uptime s), s)) as [now s'].
  destruct (Z.leb_spec now 1000).
  - cbn [fst].
    destruct (fallback_shape (ulong (uptime s'))) as [-> H2]; [|exact H2].
    apply ulong_range.
  - cbn [fst]. now apply Hlib.
Qed.

Lemma later_draft_always_iso_shaped_witness :
  isoShape (eval (getIsoTimestamp flakyBoard Later) (power_on 123456)) = true.
Proof.
  apply (later_draft_always_iso_shaped flakyBoard (power_on 123456)).
  intros t _. reflexivity.
Defined.

Lemma fallbackText_daily ms :
  fallbackText (ms + 86400000) = fallbackText ms.
Proof.
  unfold fallbackText. cbv zeta.
  replace ((ms + 86400000) / 1000) with (ms / 1000 + 86400)
    by (replace (ms + 86400000) with (ms + 86400 * 1000) by lia;
        now rewrite Z.div_add by lia).
  replace ((ms / 1000 + 86400) / 3600) with (ms / 1000 / 3600 + 24)
    by (replace (ms / 1000 + 86400) with (ms / 1000 + 24 * 3600) by lia;
        now rewrite Z.div_add by lia).
  replace ((ms / 1000 + 86400) / 60) with (ms / 1000 / 60 + 1440)
    by (replace (ms / 1000 + 86400) with (ms / 1000 + 1440 * 60) by lia;
        now rewrite Z.div_add by lia).
  replace ((ms / 1000 / 3600 + 24) mod 24) with ((ms / 1000 / 3600) mod 24)
    by (replace (ms / 1000 / 3600 + 24) with (ms / 1000 / 3600 + 1 * 24)
          by lia; now rewrite Z.mod_add by lia).
  replace ((ms / 1000 / 60 + 1440) mod 60) with ((ms / 1000 / 60) mod 60)
    by (replace (ms / 1000 / 60 + 1440) with (ms / 1000 / 60 + 24 * 60)
          by lia; now rewrite Z.mod_add by lia).
  replace ((ms / 1000 + 86400) mod 60) with ((ms / 1000) mod 60)
    by (replace (ms / 1000 + 86400) with (ms / 1000 + 1440 * 60) by lia;
        now rewrite Z.mod_add by lia).
  reflexivity.
Qed.

(** X15.  The fallback timestamp of the later draft carries the time of
    day of the uptime and no date: with the wall clock unset, two calls
    of [getIsoTimestamp] made 24 hours of uptime apart (before [millis]
    wraps) return the same text. *)
Theorem fallback_timestamp_repeats_daily hw s :
  0 <= uptime s ->
  uptime s + 86400000 + 2000 < 2 ^ 32 ->
  (forall t, uptime s <= t -> time hw t <= 1000) ->
  eval (getIsoTimestamp hw Later) (elapse 86400000 s)
  = eval (getIsoTimestamp hw Later) s.
Proof.
  intros H0 Hw Hunset. unfold eval.
  destruct (later_draft_fallback hw s) as (E1 & _).
  { intros t Ht. apply Hunset. lia. }
  destruct (later_draft_fallback hw (elapse 86400000 s)) as (E2 & _).
  { intros t Ht. apply Hunset. cbn [uptime elapse] in Ht. lia. }
  rewrite E1, E2. cbn [fst uptime elapse].
  rewrite !ulong_small by lia.
  replace (uptime s + 86400000 + 2000) with (uptime s + 2000 + 86400000)
    by lia.
  apply fallbackText_daily.
Qed.

Lemma fallback_timestamp_repeats_daily_witness :
  eval (getIsoTimestamp unsyncedBoard Later) (elapse 86400000 (power_on 6014))
  = eval (getIsoTimestamp unsyncedBoard Later) (power_on 6014).
Proof.
  apply (fallback_timestamp_repeats_daily unsyncedBoard (power_on 6014)).
  - simpl. lia.
  - vm_compute. reflexivity.
  - intros t _. simpl. lia.
Defined.

(** *** setupWiFi *)

(** In the wait of [setupWiFi], [k] turns before the 10000 ms are
    exceeded: at most [150 * k] ms pass; all of them pass when the link is
    down at the end, none when it is up at the start. *)
Lemma setupWiFi_wait_bound hw u0 : forall k fuel s,
  (1 <= k <= 67)%nat -> (k <= fuel)%nat ->
  uptime s = u0 + 10050 - 150 * Z.of_nat k ->
  exists d,
    0 <= d <= 150 * Z.of_nat k
    /\ uptime (snd (setupWiFi_wait hw fuel (ulong u0) s)) = uptime s + d
    /\ (WiFi_connected hw (uptime s + d) = false -> d = 150 * Z.of_nat k)
    /\ (WiFi_connected hw (uptime s) = true -> d = 0).
Proof.
  induction k as [|k IH]; intros fuel s Hk Hf Hu; [lia|].
  destruct fuel as [|fuel]; [lia|].
  rewrite setupWiFi_wait_step.
  destruct (WiFi_connected hw (uptime s)) eqn:Hc.
  - exists 0. cbn [snd]. rewrite Z.add_0_r, Hc.
    repeat split; try lia; discriminate.
  - cbv zeta. unfold exec. cbn [emit snd uptime elapse].
    rewrite ulong_diff, Hu.
    replace (u0 + 10050 - 150 * Z.of_nat (S k) + 150 - u0)
      with (10050 - 150 * Z.of_nat k) by lia.
    rewrite ulong_small by lia.
    destruct (Z.gtb_spec (10050 - 150 * Z.of_nat k) 10000).
    + exists 150. cbn [snd uptime]. repeat split; try lia; discriminate.
    + match goal with
      | |- context [setupWiFi_wait hw fuel (ulong u0) ?x] =>
          destruct (IH fuel x) as (d & Hd & E & F & _); try lia
      end.
      { cbn [uptime]. lia. }
      cbn [uptime] in E, F.
      exists (150 + d). rewrite E.
      split; [lia|]. split; [lia|]. split; [|discriminate].
      intros Hdown.
      replace (u0 + 10050 - 150 * Z.of_nat (S k) + (150 + d))
        with (u0 + 10050 - 150 * Z.of_nat (S k) + 150 + d) in Hdown by lia.
      apply F in Hdown. lia.
Qed.

Lemma last_snoc {A} (l : list A) a d : last (l ++ [a]) d = a.
Proof. now rewrite last_app_default. Qed.

Lemma uptime_emit o s : uptime (exec (emit o) s) = uptime s.
Proof. reflexivity. Qed.

Lemma out_emit o s : out (exec (emit o) s) = (out s ++ [o])%list.
Proof. reflexivity. Qed.

Lemma lastSend_emit o s : lastSend (exec (emit o) s) = lastSend s.
Proof. reflexivity. Qed.

Lemma interval_emit o s :
  SEND_INTERVAL_MS (exec (emit o) s) = SEND_INTERVAL_MS s.
Proof. reflexivity. Qed.

Lemma setupWiFi_exec hw s :
  exec (setupWiFi hw) s =
  let s0 := exec (emit (Serial_print "Connecting to WiFi"))
              (exec WiFi_begin_call (exec (emit WiFi_mode_STA) s)) in
  let s1 := exec (setupWiFi_wait hw 68 (ulong (uptime s))) s0 in
  if WiFi_connected hw (uptime s1) then
    exec (emit (Serial_println (WiFi_localIP hw (uptime s1))))
      (exec (emit (Serial_print "WiFi connected, IP: "))
         (exec (emit (Serial_println "")) s1))
  else
    exec (emit (Serial_println "WiFi connect attempt timed out."))
      (exec (emit (Serial_println "")) s1).
Proof.
  unfold setupWiFi. repeat (rewrite exec_bind; cbv beta). cbv zeta.
  set (x := exec (setupWiFi_wait hw 68 _) _).
  change (exec (setupWiFi_wait hw 68 (ulong (uptime s)))
            (exec (emit (Serial_print "Connecting to WiFi"))
               (exec WiFi_begin_call (exec (emit WiFi_mode_STA) s))))
    with x.
  change (eval (WiFi_status_connected hw) x) with (WiFi_connected hw (uptime x)).
  change (exec (WiFi_status_connected hw) x) with x.
  destruct (WiFi_connected hw (uptime x));
    repeat (rewrite exec_bind; cbv beta); reflexivity.
Qed.

(** X16.  [setupWiFi] returns within 10050 ms on every board: at once
    when the link is already up, and with the line "WiFi connect attempt
    timed out." only after the full 10050 ms with the link still down;
    when the link is up at the end its last line is the local IP. *)
Theorem setupWiFi_returns_within_10s hw s :
  let s' := exec (setupWiFi hw) s in
  uptime s <= uptime s' <= uptime s + 10050
  /\ (WiFi_connected hw (uptime s) = true -> uptime s' = uptime s)
  /\ (WiFi_connected hw (uptime s') = false ->
      uptime s' = uptime s + 10050
      /\ last (out s') WiFi_mode_STA
         = Serial_println "WiFi connect attempt timed out.")
  /\ (WiFi_connected hw (uptime s') = true ->
      last (out s') WiFi_mode_STA
      = Serial_println (WiFi_localIP hw (uptime s'))).
Proof.
  cbv zeta. rewrite setupWiFi_exec. cbv zeta.
  set (s0 := exec (emit (Serial_print "Connecting to WiFi"))
               (exec WiFi_begin_call (exec (emit WiFi_mode_STA) s))).
  assert (U0 : uptime s0 = uptime s) by reflexivity.
  destruct (setupWiFi_wait_bound hw (uptime s) 67 68 s0)
    as (d & Hd & E & F & G); try lia.
  fold (exec (setupWiFi_wait hw 68 (ulong (uptime s))) s0) in E.
  set (s1 := exec (setupWiFi_wait hw 68 (ulong (uptime s))) s0) in *.
  rewrite U0 in E, F, G. change (Z.of_nat 67) with 67 in *.
  rewrite <- E in F.
  destruct (WiFi_connected hw (uptime s1)) eqn:Hc;
    rewrite !uptime_emit, !out_emit, ?last_snoc.
  - rewrite Hc, E.
    split; [lia|]. split; [intros H; apply G in H; lia|].
    split; [discriminate|]. intros _. reflexivity.
  - rewrite Hc, E. specialize (F eq_refl).
    split; [lia|]. split; [intros H; apply G in H; lia|].
    split; [|discriminate]. intros _. split; [lia|reflexivity].
Qed.

Lemma setupWiFi_returns_within_10s_witness :
  uptime (exec (setupWiFi faultyBoard) (power_on 40)) = 40
  /\ uptime (exec (setupWiFi flakyBoard) (power_on 3000)) = 13050.
Proof.
  split.
  - apply (setupWiFi_returns_within_10s faultyBoard (power_on 40)).
    reflexivity.
  - apply (setupWiFi_returns_within_10s flakyBoard (power_on 3000)).
    vm_compute. reflexivity.
Defined.

(** *** The send loop *)

Ltac nothing_posted :=
  exists []; simpl; rewrite app_nil_r; repeat split; auto; lia.

Lemma idle_ret {A} (a : A) : idle (ret a).
Proof. intros s. nothing_posted. Qed.

Lemma idle_bind {A B} (m : M A) (k : A -> M B) :
  idle m -> (forall a, idle (k a)) -> idle (bind m k).
Proof.
  intros Hm Hk s. unfold bind.
  destruct (Hm s) as (e1 & O1 & A1 & L1 & I1 & U1).
  destruct (m s) as [a s1]. simpl in *.
  destruct (Hk a s1) as (e2 & O2 & A2 & L2 & I2 & U2).
  exists (e1 ++ e2)%list. rewrite O2, O1, app_assoc, posts_app, A1, A2.
  repeat split; auto; try congruence. lia.
Qed.

Lemma idle_if {A} (b : bool) (m1 m2 : M A) :
  idle m1 -> idle m2 -> idle (if b then m1 else m2).
Proof. destruct b; auto. Qed.

Lemma idle_emit o : posts [o] = [] -> idle (emit o).
Proof. intros H s. exists [o]. simpl. repeat split; auto. lia. Qed.

Lemma idle_delay ms : 0 <= ms -> idle (delay ms).
Proof. intros H s. nothing_posted. Qed.

Lemma idle_millis : idle millis.
Proof. exact (fun s => idle_ret (ulong (uptime s)) s). Qed.

Lemma idle_now_ms : idle now_ms.
Proof. exact (fun s => idle_ret (uptime s) s). Qed.

Lemma idle_read {A} (f : Sketch -> A) : idle (read f).
Proof. exact (fun s => idle_ret (f s) s). Qed.

Lemma idle_status hw : idle (WiFi_status_connected hw).
Proof. exact (fun s => idle_ret (WiFi_connected hw (uptime s)) s). Qed.

Lemma idle_set_lastWifiAttempt v : idle (set_lastWifiAttempt v).
Proof. intros s. nothing_posted. Qed.

Create HintDb idle.
#[local] Hint Resolve idle_ret idle_millis idle_now_ms idle_read
  idle_status idle_set_lastWifiAttempt : idle.
#[local] Hint Extern 1 (idle (bind _ _)) =>
  apply idle_bind; [|intros ?] : idle.
#[local] Hint Extern 1 (idle (if _ then _ else _)) => apply idle_if : idle.
#[local] Hint Extern 1 (idle (emit _)) => apply idle_emit; reflexivity : idle.
#[local] Hint Extern 1 (idle (delay _)) => apply idle_delay; lia : idle.
#[local] Hint Extern 1 (idle (match ?d with Later => _ | Earlier => _ end)) =>
  destruct d : idle.

Lemma idle_reconnect hw : idle (reconnectIfNeeded hw).
Proof. unfold reconnectIfNeeded, WiFi_begin_call. auto 30 with idle. Qed.

Lemma idle_setupWiFi_wait hw fuel : forall start,
  idle (setupWiFi_wait hw fuel start).
Proof.
  induction fuel as [|fuel IH]; intros start; simpl; auto 20 with idle.
Qed.

Lemma idle_setup hw draft : idle (setup hw draft).
Proof.
  pose proof (idle_setupWiFi_wait hw 68).
  unfold setup, setupWiFi, setupOTA, setupTime, WiFi_begin_call.
  auto 40 with idle.
Qed.

Lemma reconnect_uptime hw s : uptime (exec (reconnectIfNeeded hw) s) = uptime s.
Proof.
  unfold reconnectIfNeeded, exec, bind, WiFi_status_connected, millis, read.
  destruct (WiFi_connected hw (uptime s)); [reflexivity|].
  destruct (ulong (ulong (uptime s) - lastWifiAttempt s)
            <? WIFI_RECONNECT_INTERVAL_MS s); reflexivity.
Qed.

(** What [sendSensorData] does to the state: up to 2000 ms pass, outputs
    with at most one request are added, and a request is made only for a
    valid reading. *)
Lemma send_shape hw draft s :
  exists d e,
    0 <= d <= 2000
    /\ uptime (exec (sendSensorData hw draft) s) = uptime s + d
    /\ out (exec (sendSensorData hw draft) s) = (out s ++ e)%list
    /\ (List.length (posts e) <= 1)%nat
    /\ lastSend (exec (sendSensorData hw draft) s) = lastSend s
    /\ SEND_INTERVAL_MS (exec (sendSensorData hw draft) s)
       = SEND_INTERVAL_MS s
    /\ (posts e <> [] ->
        (isnan hw (readHumidity hw (uptime s))
         || isnan hw (readTemperature hw (uptime s)))%bool = false).
Proof.
  destruct ((isnan hw (readHumidity hw (uptime s))
             || isnan hw (readTemperature hw (uptime s)))%bool) eqn:Hn.
  - unfold exec. rewrite send_invalid by exact Hn.
    exists 0, [Serial_println "DHT read failed."]. simpl.
    repeat split; auto; try lia. intros H. now elim H.
  - destruct (getIsoTimestamp_elapse hw draft s) as (d & Hd & E & _).
    unfold sendSensorData.
    rewrite exec_bind. cbv beta zeta.
    change (eval now_ms s) with (uptime s). change (exec now_ms s) with s.
    rewrite Hn.
    repeat (rewrite exec_bind; cbv beta zeta). rewrite E.
    change (exec now_ms ?x) with x.
    change (eval now_ms ?x) with (uptime x).
    rewrite !uptime_emit. cbn [uptime elapse].
    exists d.
    destruct (http_begin hw (uptime s + d));
      [repeat (rewrite exec_bind; cbv beta zeta);
       destruct (http_POST hw (uptime s + d) _ >? 0)|];
      rewrite ?uptime_emit, ?out_emit, ?lastSend_emit, ?interval_emit;
      cbn [uptime out lastSend SEND_INTERVAL_MS elapse];
      rewrite <- ?app_assoc; cbn [app];
      eexists; (split; [exact Hd|]); (split; [reflexivity|]);
      (split; [reflexivity|]); cbn [posts List.length];
      repeat split; auto; lia.
Qed.

Lemma reconnect_frame hw s :
  exists e,
    out (exec (reconnectIfNeeded hw) s) = (out s ++ e)%list
    /\ posts e = []
    /\ uptime (exec (reconnectIfNeeded hw) s) = uptime s
    /\ lastSend (exec (reconnectIfNeeded hw) s) = lastSend s
    /\ SEND_INTERVAL_MS (exec (reconnectIfNeeded hw) s) = SEND_INTERVAL_MS s.
Proof.
  destruct (idle_reconnect hw s) as (e & O & P & L & I & _).
  exists e. fold (exec (reconnectIfNeeded hw) s) in O, L, I.
  repeat split; auto. apply reconnect_uptime.
Qed.

(** What the part of [loop] after [reconnectIfNeeded] does, from a state
    [x]. *)
Lemma tick_shape hw draft x :
  let rest :=
    (now <- millis ;;
     last <- read lastSend ;;
     interval <- read SEND_INTERVAL_MS ;;
     (if ulong (now - last) >=? interval then
        set_lastSend now ;;
        connected <- WiFi_status_connected hw ;;
        if connected then sendSensorData hw draft
        else emit (Serial_println "WiFi not connected. Skipping.")
      else ret tt) ;;
     delay 10) in
  exists d e,
    0 <= d <= 2000
    /\ uptime (exec rest x) = uptime x + d + 10
    /\ out (exec rest x) = (out x ++ e)%list
    /\ (List.length (posts e) <= 1)%nat
    /\ lastSend (exec rest x) = (if due x then ulong (uptime x) else lastSend x)
    /\ SEND_INTERVAL_MS (exec rest x) = SEND_INTERVAL_MS x
    /\ (posts e <> [] ->
        due x = true /\ WiFi_connected hw (uptime x) = true
        /\ (isnan hw (readHumidity hw (uptime x))
            || isnan hw (readTemperature hw (uptime x)))%bool = false).
Proof.
  cbv zeta. repeat (rewrite exec_bind; cbv beta).
  change (exec millis x) with x. change (eval millis x) with (ulong (uptime x)).
  change (exec (read lastSend) x) with x.
  change (eval (read lastSend) x) with (lastSend x).
  change (exec (read SEND_INTERVAL_MS) x) with x.
  change (eval (read SEND_INTERVAL_MS) x) with (SEND_INTERVAL_MS x).
  fold (due x). destruct (due x) eqn:Hdue.
  - repeat (rewrite exec_bind; cbv beta).
    set (y := exec (set_lastSend (ulong (uptime x))) x).
    change (exec (WiFi_status_connected hw) y) with y.
    change (eval (WiFi_status_connected hw) y)
      with (WiFi_connected hw (uptime x)).
    destruct (WiFi_connected hw (uptime x)) eqn:Hlink.
    + destruct (send_shape hw draft y) as (d & e & Hd & U & O & P & L & I & V).
      exists d, e. unfold exec at 1 3 5 7. cbn [delay snd elapse uptime out
        lastSend SEND_INTERVAL_MS].
      rewrite U, O, L, I. repeat split; auto; try lia.
    + exists 0, [Serial_println "WiFi not connected. Skipping."].
      repeat split; auto; try lia;
        try (match goal with H : _ <> _ |- _ => now elim H end).
      unfold exec. cbn [delay emit snd elapse uptime]. subst y.
      unfold exec. cbn [set_lastSend snd uptime]. lia.
  - exists 0, []. unfold exec.
    cbn [delay ret snd elapse uptime out lastSend SEND_INTERVAL_MS posts
         List.length].
    rewrite app_nil_r. repeat split; auto; try lia;
      try (match goal with H : _ <> _ |- _ => now elim H end).
Qed.

(** What one call of [loop] does to the state. *)
Lemma loop_shape hw draft s :
  exists d e,
    0 <= d <= 2000
    /\ uptime (exec (loop hw draft) s) = uptime s + d + 10
    /\ out (exec (loop hw draft) s) = (out s ++ e)%list
    /\ (List.length (posts e) <= 1)%nat
    /\ lastSend (exec (loop hw draft) s)
       = (if due s then ulong (uptime s) else lastSend s)
    /\ SEND_INTERVAL_MS (exec (loop hw draft) s) = SEND_INTERVAL_MS s
    /\ (posts e <> [] ->
        due s = true /\ WiFi_connected hw (uptime s) = true
        /\ (isnan hw (readHumidity hw (uptime s))
            || isnan hw (readTemperature hw (uptime s)))%bool = false).
Proof.
  unfold loop. rewrite exec_bind. cbv beta. rewrite exec_bind. cbv beta.
  set (s0 := exec (match draft with
                   | Later => ret tt
                   | Earlier => emit OTA_handle
                   end) s).
  assert (F0 : exists e0, out s0 = (out s ++ e0)%list /\ posts e0 = []
                          /\ uptime s0 = uptime s /\ lastSend s0 = lastSend s
                          /\ SEND_INTERVAL_MS s0 = SEND_INTERVAL_MS s).
  { subst s0. destruct draft.
    - exists []. rewrite app_nil_r. repeat split.
    - exists [OTA_handle]. repeat split. }
  destruct F0 as (e0 & O0 & P0 & U0 & L0 & I0).
  destruct (reconnect_frame hw s0) as (e1 & O1 & P1 & U1 & L1 & I1).
  set (x := exec (reconnectIfNeeded hw) s0) in *.
  destruct (tick_shape hw draft x) as (d & e & Hd & U & O & P & L & I & V).
  cbv zeta in U, O, P, L, I, V.
  assert (Dx : due x = due s) by (unfold due; congruence).
  exists d, (e0 ++ e1 ++ e)%list.
  rewrite U, O, L, I, O1, O0, U1, U0, L1, L0, I1, I0, Dx.
  rewrite !posts_app, P0, P1, <- !app_assoc. cbn [app].
  repeat split; auto; try lia;
    match goal with H : _ <> _ |- _ => apply V in H end;
    rewrite <- ?Dx, <- ?U0, <- ?U1; tauto.
Qed.

(** X17.  One call of [loop] makes at most one request, on every board
    and whatever the server answers; it makes one only when the send is
    due, the link is up and both readings are valid.  There is no second
    try within the call. *)
Theorem one_request_per_loop hw draft s :
  exists emitted,
    out (exec (loop hw draft) s) = (out s ++ emitted)%list
    /\ (List.length (posts emitted) <= 1)%nat
    /\ (posts emitted <> [] ->
        due s = true /\ WiFi_connected hw (uptime s) = true
        /\ (isnan hw (readHumidity hw (uptime s))
            || isnan hw (readTemperature hw (uptime s)))%bool = false).
Proof.
  destruct (loop_shape hw draft s) as (d & e & _ & _ & O & P & _ & _ & V).
  exists e. auto.
Qed.

Lemma one_request_per_loop_witness :
  exists emitted,
    out (exec (loop unsyncedBoard Later) (elapse 5000 (power_on 0)))
    = (out (elapse 5000 (power_on 0)) ++ emitted)%list
    /\ (List.length (posts emitted) <= 1)%nat.
Proof.
  destruct (one_request_per_loop unsyncedBoard Later
              (elapse 5000 (power_on 0))) as (e & O & P & _).
  exists e. split; [exact O|exact P].
Defined.

(** X18.  The time the delays of one call of [loop] take: 10 ms at
    least, and 2010 ms at most (the 10 ms of the loop and the wait for
    NTP). *)
Theorem loop_delays_bounded hw draft s :
  uptime s + 10 <= uptime (exec (loop hw draft) s) <= uptime s + 2010.
Proof.
  destruct (loop_shape hw draft s) as (d & e & Hd & U & _). lia.
Qed.

Lemma due_true_time s T d :
  0 <= d < 2 ^ 32 -> lastSend s = ulong T -> uptime s = T + d ->
  due s = (SEND_INTERVAL_MS s <=? d).
Proof.
  intros Hd HL HU. unfold due. rewrite HL, ulong_diff, HU.
  replace (T + d - T) with d by lia. rewrite ulong_small by exact Hd.
  apply Z.geb_leb.
Qed.

(** X19.  The send period is kept across the wrap of [millis].  With
    [lastSend] holding the wrapped uptime of the last tick and [d] ms
    (less than 2^32) passed since, a call of [loop] ticks exactly when
    [d] has reached SEND_INTERVAL_MS, also when the counter has wrapped
    in between; a tick with the link down posts nothing and still sets
    [lastSend], so the skipped send is not made up before the next
    period. *)
Theorem send_period_kept_across_wrap hw draft s T d :
  0 <= d < 2 ^ 32 ->
  lastSend s = ulong T ->
  uptime s = T + d ->
  let s' := exec (loop hw draft) s in
  lastSend s' = (if SEND_INTERVAL_MS s <=? d then ulong (T + d) else ulong T)
  /\ (WiFi_connected hw (uptime s) = false -> posts (out s') = posts (out s)).
Proof.
  intros Hd HL HU. cbv zeta.
  destruct (loop_shape hw draft s) as (d' & e & _ & _ & O & _ & L & _ & V).
  rewrite L, (due_true_time s T d Hd HL HU), HL, HU. split; [reflexivity|].
  intros Hdown. rewrite O, posts_app.
  destruct (posts e) as [|x l] eqn:E; [now rewrite app_nil_r|].
  destruct V as (_ & Hup & _); [discriminate|congruence].
Qed.

Lemma send_period_kept_across_wrap_witness :
  let s := elapse (2 ^ 32 + 1000) (power_on 0) in
  let s1 := exec (set_lastSend (ulong (2 ^ 32 - 4000))) s in
  lastSend (exec (loop flakyBoard Later) s1) = 1000.
Proof.
  cbv zeta.
  destruct (send_period_kept_across_wrap flakyBoard Later
              (exec (set_lastSend (ulong (2 ^ 32 - 4000)))
                    (elapse (2 ^ 32 + 1000) (power_on 0)))
              (2 ^ 32 - 4000) 5000) as [H _].
  - lia.
  - reflexivity.
  - reflexivity.
  - exact H.
Defined.

(** X20.  The backoff does not starve the reconnection.  With the link
    down, [lastWifiAttempt] holding the wrapped uptime of the last
    recorded attempt and [d] ms passed since, with [d] at least
    WIFI_RECONNECT_INTERVAL_MS and less than 2^32, [reconnectIfNeeded]
    prints its line, calls [WiFi.disconnect] and [WiFi.begin], and
    records the attempt, also when [millis] has wrapped in between. *)
Theorem reconnect_fires_when_interval_elapsed hw s T d :
  WiFi_connected hw (uptime s) = false ->
  lastWifiAttempt s = ulong T ->
  uptime s = T + d ->
  WIFI_RECONNECT_INTERVAL_MS s <= d < 2 ^ 32 ->
  0 <= d ->
  let s' := exec (reconnectIfNeeded hw) s in
  out s' = (out s ++ [Serial_println "WiFi dropped. Reconnecting...";
                      WiFi_disconnect; WiFi_begin (uptime s)])%list
  /\ lastWifiAttempt s' = ulong (uptime s)
  /\ uptime s' = uptime s.
Proof.
  intros Hdown HL HU Hd H0. cbv zeta.
  unfold reconnectIfNeeded, exec, bind, WiFi_status_connected, millis, read.
  rewrite Hdown, HL, ulong_diff, HU.
  replace (T + d - T) with d by lia. rewrite ulong_small by lia.
  destruct (Z.ltb_spec d (WIFI_RECONNECT_INTERVAL_MS s)); [lia|].
  cbn [set_lastWifiAttempt emit WiFi_begin_call now_ms bind snd uptime out
       lastWifiAttempt].
  rewrite <- !app_assoc. repeat split; auto. now rewrite HU.
Qed.

Lemma reconnect_fires_when_interval_elapsed_witness :
  let s := exec (set_lastWifiAttempt (ulong (2 ^ 32 - 2000)))
                (elapse (2 ^ 32 + 3000) (power_on 0)) in
  attempts (out (exec (reconnectIfNeeded flakyBoard) s)) = [2 ^ 32 + 3000].
Proof.
  cbv zeta.
  destruct (reconnect_fires_when_interval_elapsed flakyBoard
              (exec (set_lastWifiAttempt (ulong (2 ^ 32 - 2000)))
                    (elapse (2 ^ 32 + 3000) (power_on 0)))
              (2 ^ 32 - 2000) 5000) as (H & _).
  - reflexivity.
  - reflexivity.
  - reflexivity.
  - cbn. lia.
  - lia.
  - rewrite H. reflexivity.
Defined.

(** *** The rate of requests *)

Lemma loop_metered hw draft : metered (exec (loop hw draft)).
Proof.
  intros s T HI HT HL.
  destruct (loop_shape hw draft s) as (d & e & Hd & U & O & P & L & I & V).
  destruct (due s) eqn:Hdue.
  - exists e, (uptime s). rewrite O, I, L, U.
    repeat split; auto; try lia.
    unfold due in Hdue. rewrite HL, ulong_diff in Hdue.
    apply Z.geb_le in Hdue.
    pose proof (ulong_below (uptime s - T)).
    assert (Z.of_nat (List.length (posts e)) <= 1) by lia. nia.
  - exists e, T. rewrite O, I, L, U.
    destruct (posts e) as [|x l] eqn:E.
    + repeat split; auto; simpl; lia.
    + destruct V as (Hd' & _); [discriminate|congruence].
Qed.

Lemma pass_metered ms : metered (elapse (Z.of_N ms)).
Proof.
  intros s T HI HT HL. exists [], T. simpl. rewrite app_nil_r.
  repeat split; auto; lia.
Qed.

Lemma metered_compose f g : metered f -> metered g -> metered (fun s => g (f s)).
Proof.
  intros Hf Hg s T HI HT HL.
  destruct (Hf s T HI HT HL) as (e1 & T1 & O1 & I1 & B1 & L1 & R1).
  destruct (Hg (f s) T1) as (e2 & T2 & O2 & I2 & B2 & L2 & R2);
    try lia; auto; try congruence.
  exists (e1 ++ e2)%list, T2.
  rewrite O2, O1, app_assoc, posts_app, List.length_app, I2, I1.
  rewrite I1 in R2.
  repeat split; auto; lia.
Qed.

Lemma run_metered hw draft schedule : metered (run hw draft schedule).
Proof.
  induction schedule as [|a schedule IH].
  - intros s T HI HT HL. exists [], T. simpl. rewrite app_nil_r.
    repeat split; auto; lia.
  - refine (metered_compose _ _ _ IH).
    destruct a; [apply loop_metered|apply pass_metered].
Qed.

(** X21.  The sketch never posts faster than its send period.  In every
    execution (power-on, [setup], then calls of [loop] with any time
    passing between them, on any board, in either draft) the requests
    made so far, counted 5000 ms each, fit into the uptime: no burst
    makes up for ticks that were skipped. *)
Theorem requests_fit_send_period hw draft t0 schedule :
  5000 * Z.of_nat (List.length (posts (out (firmware hw draft t0 schedule))))
  <= uptime (firmware hw draft t0 schedule).
Proof.
  destruct (idle_setup hw draft (power_on t0)) as (e0 & O0 & P0 & L0 & I0 & U0).
  fold (exec (setup hw draft) (power_on t0)) in O0, L0, I0, U0.
  fold (after_setup hw draft t0) in O0, L0, I0, U0.
  cbn [out lastSend SEND_INTERVAL_MS uptime power_on app] in O0, L0, I0, U0.
  destruct (run_metered hw draft schedule (after_setup hw draft t0) 0)
    as (e & T' & O & I & B & L & R); rewrite ?I0, ?L0; try lia; auto.
  unfold firmware. rewrite O, O0, posts_app, P0. cbn [app].
  rewrite I0 in R. lia.
Qed.

End EdgeMore.
